(** * Adaptive quota synchronisation of the Microsoft Family plugin

    A shallow embedding of the synchronisation engine of the plugin
    factory [plugin(context)] of [src/index.js] (in this tree it follows the
    UI component in [src/Components/TabContent.js]): [determineSyncStrategy],
    [checkAndEnforceQuotas], [startQuotaMonitor], [stopQuotaMonitor] and the
    [msFamily.linkChild], [msFamily.unlinkChild] and [msFamily.syncNow] IPC
    handlers; and of the cached client
    [src/services/MicrosoftFamilyService.js]: [isAuthenticated],
    [apiRequest], [getScreenTime], [setScreenTimeLimit].

    Conventions of the embedding:
    - JavaScript numbers that hold minutes, seconds and millisecond
      timestamps are integers [Z]; [NaN] and fractions are not represented
      ([Math.floor] of a positive quotient is [Z.div]).
    - Plain objects used as dictionaries ([state.childLinks],
      [state.quotaState]) and the [Map] of cached screen times are [gmap]s
      keyed by [string].  The order in which [Object.entries] enumerates
      [state.childLinks] is a parameter ([Object_entries]) of which only
      "every entry exactly once" is assumed.
    - [Date.now()], the quota source, and the remote endpoint are the
      environment: every reading and every reply is an explicit argument.
    - Effects on the outside world are returned as a trace of [event]s.
    - Host callbacks ([context.configurationUpdate],
      [context.notification], [console.*]) are sinks that return normally.
    - An [async] function runs from call to return without another handler
      being interleaved at its [await]s.
    - The IPC handlers read the [state] parameter of [setupIPCHandlers],
      the object [onLoad] gave it; the monitor reads the plugin's own
      [state] variable, which [newState] reassigns.  Where a handler uses
      both ([msFamily.syncNow]), [bound_state] says whether the two still
      name one object.  The link handlers are stated on the object they
      hold.
    - Ids used as keys are ordinary property names (the ids of the two
      services), not names such as [__proto__] that a plain object treats
      specially. *)

From Stdlib Require Import ZArith Lia.
From stdpp Require Import base gmap strings list fin_maps.

Open Scope Z_scope.

(** ** JavaScript truthiness *)

Module Js.

(** [ToBoolean] of a number: [0] is falsy. *)
Definition truthy_num (z : Z) : bool := negb (z =? 0).

(** [ToBoolean] of a string: the empty string is falsy. *)
Definition truthy_str (s : string) : bool :=
  match s with
  | EmptyString => false
  | String _ _ => true
  end.

(** [obj?.field || d] for a numeric field: [d] replaces a missing
    object and also a falsy ([0]) field. *)
Definition or_num (x : option Z) (d : Z) : Z :=
  match x with
  | Some v => if truthy_num v then v else d
  | None => d
  end.

(** [x || false] for an optional boolean. *)
Definition or_false (x : option bool) : bool :=
  match x with
  | Some b => b
  | None => false
  end.

(** Result of a call that may [throw]. *)
Inductive outcome (A : Type) : Type :=
| Returned (a : A)
| Thrown (message : string).
Arguments Returned {A} a.
Arguments Thrown {A} message.

End Js.

Import Js.

(** ** Observable effects *)

(** The two user-facing notices of [checkAndEnforceQuotas]. *)
Inductive notice : Type :=
| LowScreenTime (msChildId : string) (minutes : Z)   (* type 'warning' *)
| ScreenTimeExhausted (msChildId : string).          (* type 'error' *)

Inductive event : Type :=
| EvGetQuota (allow2ChildId : string)
    (* context.allow2.getQuota(allow2ChildId) *)
| EvFetch (endpoint : string) (userId : string) (dailyLimitMinutes : option Z)
    (* fetch(baseUrl + endpoint, ...) inside apiRequest: one remote call *)
| EvConfigurationUpdate
    (* context.configurationUpdate(state) *)
| EvNotification (n : notice)
    (* context.notification({...}) *)
| EvConsoleError (msChildId : string).
    (* console.error in the per-child catch of checkAndEnforceQuotas *)

Definition is_remote_call (e : event) : bool :=
  match e with
  | EvFetch _ _ _ => true
  | _ => false
  end.

Definition is_notification (e : event) : bool :=
  match e with
  | EvNotification _ => true
  | _ => false
  end.

(** ** The client: src/services/MicrosoftFamilyService.js *)

Module MicrosoftFamilyService.

(** JSON body answered by [/getScreenTimeSettings]; absent fields are
    [None]. *)
Record ScreenTimeSettings : Type := {
  resp_enabled : option bool;
  resp_dailyLimitMinutes : option Z;
  resp_todayUsageMinutes : option Z;
  resp_schedule : option string
}.

(** The object built and cached by [getScreenTime]. *)
Record ScreenTime : Type := {
  childId : string;
  enabled : bool;
  dailyLimit : Z;
  currentUsage : Z;
  remaining : Z;
  schedule : option string;
  lastUpdated : Z
}.

Record CacheEntry : Type := {
  data : ScreenTime;
  timestamp : Z
}.

(** The fields of the service object read or written by the modelled
    methods ([this.cache.familyMembers] and the browser handles are not
    touched by them). *)
Record t : Type := {
  accessToken : option string;
  tokenExpiry : option Z;
  familyId : option string;
  cacheDuration : Z;
  cache_screenTime : gmap string CacheEntry
}.

Definition set_cache (svc : t) (c : gmap string CacheEntry) : t :=
  {| accessToken := accessToken svc;
     tokenExpiry := tokenExpiry svc;
     familyId := familyId svc;
     cacheDuration := cacheDuration svc;
     cache_screenTime := c |}.

(** [isAuthenticated()]:
    [this.accessToken && this.tokenExpiry && Date.now() < this.tokenExpiry]. *)
Definition isAuthenticated (svc : t) (now : Z) : bool :=
  match accessToken svc, tokenExpiry svc with
  | Some tok, Some expiry =>
      truthy_str tok && truthy_num expiry && (now <? expiry)
  | _, _ => false
  end.

(** What the transport answers to one request: a parsed JSON body, or a
    failure ([fetch] rejects, [!response.ok], or the body does not parse). *)
Inductive api_reply (R : Type) : Type :=
| ApiOk (body : R)
| ApiError (message : string).
Arguments ApiOk {R} body.
Arguments ApiError {R} message.

(** [apiRequest(endpoint, data)].  [now] is its own [Date.now()]. *)
Definition apiRequest {R : Type} (svc : t) (now : Z)
    (endpoint userId : string) (dailyLimitMinutes : option Z)
    (reply : api_reply R) : outcome R * list event :=
  if negb (isAuthenticated svc now) then
    (Thrown "Not authenticated", [])
  else
    match reply with
    | ApiOk body => (Returned body, [EvFetch endpoint userId dailyLimitMinutes])
    | ApiError msg => (Thrown msg, [EvFetch endpoint userId dailyLimitMinutes])
    end.

(** Environment of one [setScreenTimeLimit] call. *)
Record push_env : Type := {
  push_now_check : Z;          (* Date.now() of the method's own guard *)
  push_now_request : Z;        (* Date.now() of apiRequest's guard *)
  push_reply : api_reply unit  (* the response body is not inspected *)
}.

Record SetResult : Type := {
  set_success : bool;
  set_childId : string;
  set_dailyLimit : Z
}.

(** [setScreenTimeLimit(childId, minutes)]. *)
Definition setScreenTimeLimit (svc : t) (child : string) (minutes : Z)
    (env : push_env) : outcome SetResult * t * list event :=
  if negb (isAuthenticated svc (push_now_check env)) then
    (Thrown "Not authenticated. Call authenticate() first.", svc, [])
  else
    match apiRequest svc (push_now_request env)
            "/setScreenTimeLimit" child (Some minutes) (push_reply env) with
    | (Returned _, evs) =>
        (* Invalidate cache *)
        (Returned {| set_success := true;
                     set_childId := child;
                     set_dailyLimit := minutes |},
         set_cache svc (delete child (cache_screenTime svc)),
         evs)
    | (Thrown msg, evs) => (Thrown msg, svc, evs)
    end.

(** Environment of one [getScreenTime] call. *)
Record fetch_env : Type := {
  fetch_now_check : Z;         (* guard of the method *)
  fetch_now_cache : Z;         (* freshness test of the cached entry *)
  fetch_now_request : Z;       (* guard of apiRequest *)
  fetch_reply : api_reply ScreenTimeSettings;
  fetch_now_updated : Z;       (* lastUpdated: Date.now() *)
  fetch_now_stamp : Z          (* timestamp: Date.now() *)
}.

Definition mkScreenTime (child : string) (response : ScreenTimeSettings)
    (now : Z) : ScreenTime :=
  {| childId := child;
     enabled := or_false (resp_enabled response);
     dailyLimit := or_num (resp_dailyLimitMinutes response) 0;
     currentUsage := or_num (resp_todayUsageMinutes response) 0;
     remaining :=
       Z.max 0 (or_num (resp_dailyLimitMinutes response) 0
                - or_num (resp_todayUsageMinutes response) 0);
     schedule := resp_schedule response;
     lastUpdated := now |}.

(** The cache test of [getScreenTime]:
    [!forceRefresh && cached && (Date.now() - cached.timestamp) < cacheDuration]. *)
Definition cache_hit (svc : t) (child : string) (forceRefresh : bool)
    (now : Z) : option ScreenTime :=
  match cache_screenTime svc !! child with
  | Some cached =>
      if negb forceRefresh && (now - timestamp cached <? cacheDuration svc)
      then Some (data cached)
      else None
  | None => None
  end.

(** [getScreenTime(childId, forceRefresh)]. *)
Definition getScreenTime (svc : t) (child : string) (forceRefresh : bool)
    (env : fetch_env) : outcome ScreenTime * t * list event :=
  if negb (isAuthenticated svc (fetch_now_check env)) then
    (Thrown "Not authenticated. Call authenticate() first.", svc, [])
  else
    match cache_hit svc child forceRefresh (fetch_now_cache env) with
    | Some cachedData => (Returned cachedData, svc, [])
    | None =>
        match apiRequest svc (fetch_now_request env)
                "/getScreenTimeSettings" child None (fetch_reply env) with
        | (Returned response, evs) =>
            let screenTime :=
              mkScreenTime child response (fetch_now_updated env) in
            (Returned screenTime,
             set_cache svc
               (<[child := {| data := screenTime;
                              timestamp := fetch_now_stamp env |}]>
                  (cache_screenTime svc)),
             evs)
        | (Thrown msg, evs) => (Thrown msg, svc, evs)
        end
    end.

End MicrosoftFamilyService.

(** ** The plugin factory: [plugin(context)] *)

Module Plugin.

Import MicrosoftFamilyService.

(** One value of [state.quotaState]. *)
Record QuotaEntry : Type := {
  lastSyncTime : Z;
  lastSyncMinutes : Z;
  allow2Minutes : Z
}.

Record Settings : Type := {
  headless : bool;
  syncInterval : Z;
  aggressiveSyncThreshold : Z
}.

(** The [state] object ([children] is only read to word notification
    messages and is left out; a notice carries the child id instead). *)
Record PluginState : Type := {
  authenticated : bool;
  childLinks : gmap string string;       (* msChildId -> allow2ChildId *)
  quotaState : gmap string QuotaEntry;   (* allow2ChildId -> quota tracking *)
  settings : Settings;
  lastSync : option Z
}.

Definition set_links_quota (st : PluginState)
    (links : gmap string string) (qs : gmap string QuotaEntry) : PluginState :=
  {| authenticated := authenticated st;
     childLinks := links;
     quotaState := qs;
     settings := settings st;
     lastSync := lastSync st |}.

Definition set_quotaState (st : PluginState) (qs : gmap string QuotaEntry)
    : PluginState :=
  set_links_quota st (childLinks st) qs.

Definition set_lastSync (st : PluginState) (now : Z) : PluginState :=
  {| authenticated := authenticated st;
     childLinks := childLinks st;
     quotaState := quotaState st;
     settings := settings st;
     lastSync := Some now |}.

(** Default settings of [onLoad]. *)
Definition defaultSettings : Settings :=
  {| headless := true; syncInterval := 600000; aggressiveSyncThreshold := 30 |}.

(** State created by [onLoad] when nothing was persisted. *)
Definition initialState : PluginState :=
  {| authenticated := false;
     childLinks := ∅;
     quotaState := ∅;
     settings := defaultSettings;
     lastSync := None |}.

(** *** determineSyncStrategy *)

(** [quotaState?.allow2Minutes || newMinutes] *)
Definition oldMinutes_of (q : option QuotaEntry) (newMinutes : Z) : Z :=
  or_num (allow2Minutes <$> q) newMinutes.

(** [quotaState?.lastSyncTime || 0] *)
Definition lastSync_of (q : option QuotaEntry) : Z :=
  or_num (lastSyncTime <$> q) 0.

Definition aggressiveInterval : Z := 600000.

(** The branch through which [determineSyncStrategy] returns; the four
    reasons are its four log lines. *)
Inductive sync_reason : Type :=
| QuotaIncreased      (* 'Quota increased, syncing immediately' *)
| QuotaExhausted      (* 'Quota exhausted, syncing immediately' *)
| AggressiveSync      (* 'Below threshold, aggressive sync' *)
| NormalSync.         (* 'Normal scheduled sync' *)

(** Body of [determineSyncStrategy] on the looked-up entry, keeping
    the branch taken: [None] is the final [return false]. *)
Definition syncReason (cfg : Settings) (q : option QuotaEntry)
    (newMinutes now : Z) : option sync_reason :=
  let oldMinutes := oldMinutes_of q newMinutes in
  let lastSync := lastSync_of q in
  if newMinutes >? oldMinutes then Some QuotaIncreased
  else if (newMinutes =? 0) && (oldMinutes >? 0) then Some QuotaExhausted
  else if (newMinutes <? aggressiveSyncThreshold cfg)
          && (now - lastSync >=? aggressiveInterval) then Some AggressiveSync
  else if now - lastSync >=? syncInterval cfg then Some NormalSync
  else None.

(** [determineSyncStrategy(allow2ChildId, newMinutes)]; [now] is its
    [Date.now()]. *)
Definition determineSyncStrategy (st : PluginState) (allow2ChildId : string)
    (newMinutes now : Z) : bool :=
  let quotaState := quotaState st !! allow2ChildId in
  let oldMinutes := oldMinutes_of quotaState newMinutes in
  let lastSync := lastSync_of quotaState in
  if newMinutes >? oldMinutes then true
  else if (newMinutes =? 0) && (oldMinutes >? 0) then true
  else if (newMinutes <? aggressiveSyncThreshold (settings st))
          && (now - lastSync >=? aggressiveInterval) then true
  else if now - lastSync >=? syncInterval (settings st) then true
  else false.

(** *** checkAndEnforceQuotas *)

(** Answer of [context.allow2.getQuota]. *)
Inductive quota_reply : Type :=
| QuotaThrows                                   (* the promise rejects *)
| QuotaNone                                     (* falsy: no data *)
| QuotaData (allowed : bool) (remainingSeconds : Z).

(** [quota.allowed && quota.remaining > 0 ? Math.floor(quota.remaining / 60) : 0] *)
Definition remainingMinutes_of (allowed : bool) (remainingSeconds : Z) : Z :=
  if allowed && (remainingSeconds >? 0) then remainingSeconds / 60 else 0.

(** Environment of one iteration of the loop over the links. *)
Record child_env : Type := {
  env_quota : quota_reply;
  env_now_decide : Z;          (* Date.now() in determineSyncStrategy *)
  env_push : push_env;
  env_now_update : Z           (* lastSyncTime: Date.now() *)
}.

(** The notification sent after a successful push. *)
Definition quotaNotification (msChildId : string) (remainingMinutes : Z)
    : list event :=
  if (remainingMinutes <? 10) && (remainingMinutes >? 0) then
    [EvNotification (LowScreenTime msChildId remainingMinutes)]
  else if remainingMinutes =? 0 then
    [EvNotification (ScreenTimeExhausted msChildId)]
  else [].

Definition pushedEntry (now remainingMinutes : Z) : QuotaEntry :=
  {| lastSyncTime := now;
     lastSyncMinutes := remainingMinutes;
     allow2Minutes := remainingMinutes |}.

(** Body of [for (const [msChildId, allow2ChildId] of ...)], with its
    [try]/[catch]. *)
Definition enforceChild (env : child_env) (msChildId allow2ChildId : string)
    (p : PluginState * t) : (PluginState * t) * list event :=
  let '(st, svc) := p in
  match env_quota env with
  | QuotaThrows =>
      (p, [EvGetQuota allow2ChildId; EvConsoleError msChildId])
  | QuotaNone =>
      (p, [EvGetQuota allow2ChildId])
  | QuotaData allowed remainingSeconds =>
      let remainingMinutes := remainingMinutes_of allowed remainingSeconds in
      if determineSyncStrategy st allow2ChildId remainingMinutes
           (env_now_decide env)
      then
        match setScreenTimeLimit svc msChildId remainingMinutes (env_push env) with
        | (Returned _, svc', evs) =>
            let st' :=
              set_quotaState st
                (<[allow2ChildId :=
                     pushedEntry (env_now_update env) remainingMinutes]>
                   (quotaState st)) in
            ((st', svc'),
             [EvGetQuota allow2ChildId] ++ evs ++ [EvConfigurationUpdate]
             ++ quotaNotification msChildId remainingMinutes)
        | (Thrown _, svc', evs) =>
            ((st, svc'),
             [EvGetQuota allow2ChildId] ++ evs ++ [EvConsoleError msChildId])
        end
      else (p, [EvGetQuota allow2ChildId])
  end.

(** What one iteration does about the push: [None] when no push is
    attempted (no quota data, or not due), otherwise the minutes handed to
    [setScreenTimeLimit] and how that call ended. *)
Definition push_attempt (env : child_env) (msChildId allow2ChildId : string)
    (p : PluginState * t) : option (Z * outcome SetResult) :=
  match env_quota env with
  | QuotaData allowed remainingSeconds =>
      let remainingMinutes := remainingMinutes_of allowed remainingSeconds in
      if determineSyncStrategy (fst p) allow2ChildId remainingMinutes
           (env_now_decide env)
      then Some (remainingMinutes,
                 fst (fst (setScreenTimeLimit (snd p) msChildId
                             remainingMinutes (env_push env))))
      else None
  | _ => None
  end.

(** Whether an iteration met in state [st] finds a push due: there is
    quota data and [determineSyncStrategy] answers [true]. *)
Definition due (env : child_env) (allow2ChildId : string) (st : PluginState)
    : bool :=
  match env_quota env with
  | QuotaData allowed remainingSeconds =>
      determineSyncStrategy st allow2ChildId
        (remainingMinutes_of allowed remainingSeconds) (env_now_decide env)
  | _ => false
  end.

(** The minutes an iteration computes from the quota it was given. *)
Definition push_minutes (env : child_env) : Z :=
  match env_quota env with
  | QuotaData allowed remainingSeconds =>
      remainingMinutes_of allowed remainingSeconds
  | _ => 0
  end.

Definition push_fails (env : child_env) (msChildId allow2ChildId : string)
    (p : PluginState * t) : Prop :=
  exists minutes msg,
    push_attempt env msChildId allow2ChildId p = Some (minutes, Thrown msg).

Definition push_succeeds (env : child_env) (msChildId allow2ChildId : string)
    (p : PluginState * t) (minutes : Z) : Prop :=
  exists r,
    push_attempt env msChildId allow2ChildId p = Some (minutes, Returned r).

(** The loop over a snapshot of the entries; [envs] gives the
    environment met while handling each Microsoft child. *)
Fixpoint enforceEntries (envs : string -> child_env)
    (entries : list (string * string)) (p : PluginState * t)
    : (PluginState * t) * list event :=
  match entries with
  | [] => (p, [])
  | (msChildId, allow2ChildId) :: rest =>
      let '(p1, evs1) := enforceChild (envs msChildId) msChildId allow2ChildId p in
      let '(p2, evs2) := enforceEntries envs rest p1 in
      (p2, evs1 ++ evs2)
  end.

Record tick_env : Type := {
  tick_now_auth : Z;                   (* familyService.isAuthenticated() *)
  tick_child : string -> child_env;
  tick_now_end : Z                     (* state.lastSync = Date.now() *)
}.

Section Engine.

(** [Object.entries] on [state.childLinks]. *)
Variable Object_entries : gmap string string -> list (string * string).

(** [checkAndEnforceQuotas(context)] *)
Definition checkAndEnforceQuotas (env : tick_env) (p : PluginState * t)
    : (PluginState * t) * list event :=
  let '(st, svc) := p in
  if negb (authenticated st) || negb (isAuthenticated svc (tick_now_auth env))
  then (p, [])
  else
    let '((st', svc'), evs) :=
      enforceEntries (tick_child env) (Object_entries (childLinks st)) p in
    ((set_lastSync st' (tick_now_end env), svc'),
     evs ++ [EvConfigurationUpdate]).

(** The variables closed over by the plugin factory.  [timers] is the
    host's table of live [setInterval] handles. *)
Record Closure : Type := {
  state : PluginState;
  familyService : t;
  quotaMonitor : option nat;
  timers : gset nat
}.

Definition with_engine (c : Closure) (p : PluginState * t) : Closure :=
  {| state := fst p;
     familyService := snd p;
     quotaMonitor := quotaMonitor c;
     timers := timers c |}.

(** The callback given to [setInterval] by [startQuotaMonitor]:
    [try { await checkAndEnforceQuotas(context) } catch ...]. *)
Definition quotaMonitorTick (env : tick_env) (c : Closure)
    : Closure * list event :=
  let '(p, evs) := checkAndEnforceQuotas env (state c, familyService c) in
  (with_engine c p, evs).

(** [startQuotaMonitor(context)]; [handle] is what [setInterval]
    returns, [env] the environment of the immediate first run. *)
Definition startQuotaMonitor (handle : nat) (env : tick_env) (c : Closure)
    : Closure * list event :=
  match quotaMonitor c with
  | Some _ => (c, [])
  | None =>
      let c1 := {| state := state c;
                   familyService := familyService c;
                   quotaMonitor := Some handle;
                   timers := {[handle]} ∪ timers c |} in
      quotaMonitorTick env c1
  end.

(** [stopQuotaMonitor()] *)
Definition stopQuotaMonitor (c : Closure) : Closure :=
  match quotaMonitor c with
  | Some handle =>
      {| state := state c;
         familyService := familyService c;
         quotaMonitor := None;
         timers := timers c ∖ {[handle]} |}
  | None => c
  end.

(** Reply of the ['msFamily.syncNow'] handler:
    [[null, { success: true, syncTime: state.lastSync }]]. *)
Record SyncNowReply : Type := {
  sync_success : bool;
  syncTime : option Z
}.

(** The [state] a handler reads is the parameter of [setupIPCHandlers],
    bound once by [onLoad]; [checkAndEnforceQuotas] reads the plugin's
    [state] variable.  They name one object until [newState] assigns the
    variable; from then on the handlers hold the object that was replaced,
    which no tick writes to. *)
Inductive bound_state : Type :=
| SameObject                       (* still the object the variable names *)
| Replaced (old : PluginState).    (* an object [newState] has replaced *)

(** [state.lastSync] as a handler reads it once the plugin's variable
    holds [st]. *)
Definition bound_lastSync (bound : bound_state) (st : PluginState)
    : option Z :=
  match bound with
  | SameObject => lastSync st
  | Replaced old => lastSync old
  end.

(** The ['msFamily.syncNow'] IPC handler: [checkAndEnforceQuotas] runs on
    the plugin's variables, the reply reads the handler's own [state]. *)
Definition syncNow (bound : bound_state) (env : tick_env) (c : Closure)
    : SyncNowReply * Closure * list event :=
  let '(p, evs) := checkAndEnforceQuotas env (state c, familyService c) in
  ({| sync_success := true; syncTime := bound_lastSync bound (fst p) |},
   with_engine c p, evs).

End Engine.

(** *** Link registry: the linkChild / unlinkChild IPC handlers *)

Definition zeroEntry : QuotaEntry :=
  {| lastSyncTime := 0; lastSyncMinutes := 0; allow2Minutes := 0 |}.

(** ['msFamily.linkChild'] *)
Definition linkChild (msChildId allow2ChildId : string) (st : PluginState)
    : PluginState * list event :=
  (set_links_quota st
     (<[msChildId := allow2ChildId]> (childLinks st))
     (<[allow2ChildId := zeroEntry]> (quotaState st)),
   [EvConfigurationUpdate]).

(** ['msFamily.unlinkChild'] *)
Definition unlinkChild (msChildId : string) (st : PluginState)
    : PluginState * list event :=
  let allow2ChildId := childLinks st !! msChildId in
  let links := delete msChildId (childLinks st) in
  let qs :=
    match allow2ChildId with
    | Some a => if truthy_str a then delete a (quotaState st) else quotaState st
    | None => quotaState st
    end in
  (set_links_quota st links qs, [EvConfigurationUpdate]).

(** A management action on the registry. *)
Inductive link_op : Type :=
| Link (msChildId allow2ChildId : string)
| Unlink (msChildId : string).

Definition apply_op (op : link_op) (st : PluginState) : PluginState :=
  match op with
  | Link ms a => fst (linkChild ms a st)
  | Unlink ms => fst (unlinkChild ms st)
  end.

Definition apply_ops (ops : list link_op) (st : PluginState) : PluginState :=
  foldl (fun s op => apply_op op s) st ops.

(** Every link has an entry, and every entry has a link. *)
Definition registry_consistent (st : PluginState) : Prop :=
  (forall ms a, childLinks st !! ms = Some a -> is_Some (quotaState st !! a))
  /\ (forall a, is_Some (quotaState st !! a) ->
        exists ms, childLinks st !! ms = Some a).

(** Consistency, together with what keeps it: no Allow2 child is the
    target of two links, and no link targets the empty id. *)
Definition registry_wf (st : PluginState) : Prop :=
  registry_consistent st
  /\ (forall ms1 ms2 a,
        childLinks st !! ms1 = Some a -> childLinks st !! ms2 = Some a ->
        ms1 = ms2)
  /\ (forall ms a, childLinks st !! ms = Some a -> truthy_str a = true).

(** In every entry the two minute fields agree: the code writes them
    together. *)
Definition entries_coherent (st : PluginState) : Prop :=
  map_Forall (fun _ q => lastSyncMinutes q = allow2Minutes q) (quotaState st).

(** A link request that neither re-links a linked Microsoft child nor
    targets an Allow2 child that is already linked or has an empty id;
    unlinking is always admitted. *)
Definition link_guard (st : PluginState) (op : link_op) : bool :=
  match op with
  | Link ms a =>
      bool_decide (childLinks st !! ms = None)
      && bool_decide (map_Forall (fun _ a' => a' <> a) (childLinks st))
      && truthy_str a
  | Unlink _ => true
  end.

Fixpoint guarded (ops : list link_op) (st : PluginState) : bool :=
  match ops with
  | [] => true
  | op :: rest => link_guard st op && guarded rest (apply_op op st)
  end.

End Plugin.

(** ** Concrete configurations used by the examples *)

Module Scenarios.

Import MicrosoftFamilyService Plugin.

(** A state whose only child was linked, synced down to 0 minutes at
    [t = 1000000], and is still linked. *)
Definition st_exhausted : PluginState :=
  {| authenticated := true;
     childLinks := {[ "ms-1" := "kid-1" ]};
     quotaState := {[ "kid-1" := pushedEntry 1000000 0 ]};
     settings := defaultSettings;
     lastSync := Some 1000000 |}.

(** The same child with 45 minutes pushed at [t = 1000000]. *)
Definition st_45 : PluginState :=
  {| authenticated := true;
     childLinks := {[ "ms-1" := "kid-1" ]};
     quotaState := {[ "kid-1" := pushedEntry 1000000 45 ]};
     settings := defaultSettings;
     lastSync := Some 1000000 |}.

(** A signed-in client whose cache holds a snapshot of ["ms-1"] that is
    two seconds old at [t = 1000000]. *)
Definition snapshot_120 : ScreenTime :=
  {| childId := "ms-1"; enabled := true; dailyLimit := 120;
     currentUsage := 30; remaining := 90; schedule := None;
     lastUpdated := 998000 |}.

Definition svc_cached : MicrosoftFamilyService.t :=
  {| accessToken := Some "token";
     tokenExpiry := Some 4600000;
     familyId := Some "family";
     cacheDuration := 300000;
     cache_screenTime :=
       {[ "ms-1" := {| data := snapshot_120; timestamp := 998000 |} ]} |}.

(** A push that the remote end accepts at [t = 1000000]. *)
Definition push_ok : push_env :=
  {| push_now_check := 1000000;
     push_now_request := 1000000;
     push_reply := ApiOk tt |}.

(** A push answered by an error (for instance status 500). *)
Definition push_500 : push_env :=
  {| push_now_check := 1000000;
     push_now_request := 1000000;
     push_reply := ApiError "API request failed: 500 Internal Server Error" |}.

(** A read one millisecond later, answered with the new limit. *)
Definition fetch_after : fetch_env :=
  {| fetch_now_check := 1000001;
     fetch_now_cache := 1000001;
     fetch_now_request := 1000001;
     fetch_reply :=
       ApiOk {| resp_enabled := Some true;
                resp_dailyLimitMinutes := Some 60;
                resp_todayUsageMinutes := Some 30;
                resp_schedule := None |};
     fetch_now_updated := 1000001;
     fetch_now_stamp := 1000001 |}.

(** [Object.entries] of an object whose properties were created in the
    order [keys]. *)
Definition entries_in_order (keys : list string) (m : gmap string string)
    : list (string * string) :=
  omap (fun k => pair k <$> m !! k) keys.

Definition created_12 : gmap string string -> list (string * string) :=
  entries_in_order ["ms-1"; "ms-2"].

Definition st_signed_in : PluginState :=
  {| authenticated := true;
     childLinks := ∅;
     quotaState := ∅;
     settings := defaultSettings;
     lastSync := None |}.

(** Two Microsoft children linked to two Allow2 children. *)
Definition st_two : PluginState :=
  apply_ops [Link "ms-1" "kid-1"; Link "ms-2" "kid-2"] st_signed_in.

(** Two Microsoft accounts linked to the same Allow2 child. *)
Definition st_shared : PluginState :=
  apply_ops [Link "ms-1" "kid-1"; Link "ms-2" "kid-1"] st_signed_in.

(** 25 minutes left, read at [t = 1000000]. *)
Definition child_25 (push : push_env) : child_env :=
  {| env_quota := QuotaData true 1500;
     env_now_decide := 1000000;
     env_push := push;
     env_now_update := 1000000 |}.

(** A tick at [t = 1000000] in which the push for ["ms-1"] is refused
    and every other push is accepted. *)
Definition tick_ms1_fails : tick_env :=
  {| tick_now_auth := 1000000;
     tick_child :=
       fun ms => if String.eqb ms "ms-1" then child_25 push_500
                 else child_25 push_ok;
     tick_now_end := 1000000 |}.

(** The client once its token has run out (expiry at [t = 900000]). *)
Definition svc_expired : MicrosoftFamilyService.t :=
  {| accessToken := Some "token";
     tokenExpiry := Some 900000;
     familyId := Some "family";
     cacheDuration := 300000;
     cache_screenTime := ∅ |}.

(** A running monitor (timer handle 7) whose client token has expired. *)
Definition closure_expired : Closure :=
  {| state := st_two;
     familyService := svc_expired;
     quotaMonitor := Some 7%nat;
     timers := {[ 7%nat ]} |}.

(** A running monitor with a valid token and the 45-minute state. *)
Definition closure_45 : Closure :=
  {| state := st_45;
     familyService := svc_cached;
     quotaMonitor := Some 7%nat;
     timers := {[ 7%nat ]} |}.

(** Quota used up (not allowed), read at time [t]; the push is
    accepted. *)
Definition child_zero (t : Z) : child_env :=
  {| env_quota := QuotaData false 0;
     env_now_decide := t;
     env_push := {| push_now_check := t;
                    push_now_request := t;
                    push_reply := ApiOk tt |};
     env_now_update := t |}.

Definition tick_zero_at (t : Z) : tick_env :=
  {| tick_now_auth := t;
     tick_child := fun _ => child_zero t;
     tick_now_end := t |}.

(** 60 minutes left (3600 seconds), read at time [t]. *)
Definition tick_60_at (t : Z) : tick_env :=
  {| tick_now_auth := t;
     tick_child :=
       fun _ => {| env_quota := QuotaData true 3600;
                   env_now_decide := t;
                   env_push := {| push_now_check := t;
                                  push_now_request := t;
                                  push_reply := ApiOk tt |};
                   env_now_update := t |};
     tick_now_end := t |}.

(** 45 minutes left (2700 seconds), read at time [t]. *)
Definition tick_45_at (t : Z) : tick_env :=
  {| tick_now_auth := t;
     tick_child :=
       fun _ => {| env_quota := QuotaData true 2700;
                   env_now_decide := t;
                   env_push := {| push_now_check := t;
                                  push_now_request := t;
                                  push_reply := ApiOk tt |};
                   env_now_update := t |};
     tick_now_end := t |}.

End Scenarios.

(** ** The roster: [getFamilyMembers] and [clearCache] *)

Module Roster.

Import MicrosoftFamilyService.

(** One element of [response.users] in the body of [/getFamilyInfo]. *)
Record User : Type := {
  user_userId : string;
  user_firstName : string;
  user_lastName : option string;
  user_email : option string;
  user_isChild : bool;
  user_age : option Z;
  user_profilePictureUrl : option string
}.

(** The body of [/getFamilyInfo]. *)
Record FamilyInfo : Type := {
  info_familyId : option string;
  info_users : option (list User)
}.

(** One element of the list built by [getFamilyMembers]. *)
Record Member : Type := {
  member_id : string;
  member_name : string;
  member_email : option string;
  member_isChild : bool;
  member_age : option Z;
  member_avatar : option string
}.

(** The service object with its second cache, [this.cache.familyMembers]:
    [{ data: null, timestamp: null }] is [None]; data and timestamp are
    always written together. *)
Record client : Type := {
  service : t;
  familyMembers : option (list Member * Z)
}.

(** [user.firstName + (user.lastName ? ' ' + user.lastName : '')] *)
Definition fullName (u : User) : string :=
  user_firstName u
  +:+ match user_lastName u with
      | Some l => if truthy_str l then " " +:+ l else EmptyString
      | None => EmptyString
      end.

(** The arrow function mapped over [response.users]. *)
Definition memberOf (u : User) : Member :=
  {| member_id := user_userId u;
     member_name := fullName u;
     member_email := user_email u;
     member_isChild := user_isChild u;
     member_age := user_age u;
     member_avatar := user_profilePictureUrl u |}.

(** [(response.users || []).map(...)] followed by
    [members.filter(m => m.isChild)]. *)
Definition childrenOf (info : FamilyInfo) : list Member :=
  List.filter member_isChild
    (List.map memberOf (default [] (info_users info))).

(** [!response || !response.familyId] *)
Definition validFamilyId (response : option FamilyInfo) : option string :=
  match response with
  | Some info =>
      match info_familyId info with
      | Some fid => if truthy_str fid then Some fid else None
      | None => None
      end
  | None => None
  end.

Definition set_familyId (svc : t) (fid : string) : t :=
  {| accessToken := accessToken svc;
     tokenExpiry := tokenExpiry svc;
     familyId := Some fid;
     cacheDuration := cacheDuration svc;
     cache_screenTime := cache_screenTime svc |}.

(** Environment of one [getFamilyMembers] call. *)
Record roster_env : Type := {
  roster_now_check : Z;        (* guard of the method *)
  roster_now_cache : Z;        (* freshness test of the cached list *)
  roster_now_request : Z;      (* guard of apiRequest *)
  roster_reply : api_reply (option FamilyInfo);
  roster_now_stamp : Z         (* timestamp: Date.now() *)
}.

(** The cache test of [getFamilyMembers]:
    [!forceRefresh && this.cache.familyMembers.data &&
     (Date.now() - this.cache.familyMembers.timestamp) < cacheDuration];
    an array, even an empty one, is truthy. *)
Definition roster_hit (c : client) (forceRefresh : bool) (now : Z)
    : option (list Member) :=
  match familyMembers c with
  | Some (cachedData, stamp) =>
      if negb forceRefresh && (now - stamp <? cacheDuration (service c))
      then Some cachedData
      else None
  | None => None
  end.

(** [getFamilyMembers(forceRefresh)].  The request has no body; the
    event records it with an empty user id. *)
Definition getFamilyMembers (c : client) (forceRefresh : bool)
    (env : roster_env) : outcome (list Member) * client * list event :=
  if negb (isAuthenticated (service c) (roster_now_check env)) then
    (Thrown "Not authenticated. Call authenticate() first.", c, [])
  else
    match roster_hit c forceRefresh (roster_now_cache env) with
    | Some cachedData => (Returned cachedData, c, [])
    | None =>
        match apiRequest (service c) (roster_now_request env)
                "/getFamilyInfo" EmptyString None (roster_reply env) with
        | (Returned response, evs) =>
            match validFamilyId response, response with
            | Some fid, Some info =>
                let children := childrenOf info in
                (Returned children,
                 {| service := set_familyId (service c) fid;
                    familyMembers := Some (children, roster_now_stamp env) |},
                 evs)
            | _, _ => (Thrown "Invalid family info response", c, evs)
            end
        | (Thrown msg, evs) => (Thrown msg, c, evs)
        end
    end.

(** [clearCache()] *)
Definition clearCache (c : client) : client :=
  {| service := set_cache (service c) ∅;
     familyMembers := None |}.

(** The cached roster holds managed children only. *)
Definition roster_cache_ok (c : client) : Prop :=
  match familyMembers c with
  | Some (cachedData, _) => Forall (fun m => member_isChild m = true) cachedData
  | None => True
  end.

End Roster.

(** ** Snapshots held by the screen-time cache *)

Module Snapshots.

Import MicrosoftFamilyService.

(** A snapshot filed under [key] is about that child, and its
    [remaining] is what its own limit and usage give. *)
Definition snapshot_ok (key : string) (s : ScreenTime) : Prop :=
  childId s = key
  /\ remaining s = Z.max 0 (dailyLimit s - currentUsage s).

Definition cache_ok (svc : t) : Prop :=
  map_Forall (fun key entry => snapshot_ok key (data entry))
    (cache_screenTime svc).

End Snapshots.

(** ** Plugin lifecycle: [onLoad], [newState], [onSetEnabled], [onUnload] *)

Module Lifecycle.

Import MicrosoftFamilyService Plugin.

(** The persisted [state] object, with the two token fields that
    [PluginState] leaves out. *)
Record StoredState : Type := {
  stored_state : PluginState;
  stored_accessToken : option string;
  stored_tokenExpiry : option Z
}.

(** [new MicrosoftFamilyService({ headless })]: no tokens, empty caches,
    the default cache duration. *)
Definition newService : t :=
  {| accessToken := None;
     tokenExpiry := None;
     familyId := None;
     cacheDuration := 300000;
     cache_screenTime := ∅ |}.

(** [state.accessToken && state.tokenExpiry && Date.now() < state.tokenExpiry] *)
Definition storedTokenValid (s : StoredState) (now : Z) : bool :=
  match stored_accessToken s, stored_tokenExpiry s with
  | Some tok, Some expiry =>
      truthy_str tok && truthy_num expiry && (now <? expiry)
  | _, _ => false
  end.

Definition set_authenticated (st : PluginState) : PluginState :=
  {| authenticated := true;
     childLinks := childLinks st;
     quotaState := quotaState st;
     settings := settings st;
     lastSync := lastSync st |}.

(** [onLoad(loadState)] in a fresh plugin instance (no timer yet); [now]
    is its [Date.now()]. *)
Definition onLoad (loadState : option StoredState) (now : Z) : Closure :=
  match loadState with
  | Some s =>
      if storedTokenValid s now then
        {| state := set_authenticated (stored_state s);
           familyService :=
             {| accessToken := stored_accessToken s;
                tokenExpiry := stored_tokenExpiry s;
                familyId := None;
                cacheDuration := 300000;
                cache_screenTime := ∅ |};
           quotaMonitor := None;
           timers := ∅ |}
      else
        {| state := stored_state s;
           familyService := newService;
           quotaMonitor := None;
           timers := ∅ |}
  | None =>
      {| state := initialState;
         familyService := newService;
         quotaMonitor := None;
         timers := ∅ |}
  end.

(** What the lifecycle hooks tell the host, besides what the engine
    does. *)
Inductive host_event : Type :=
| StatusUpdate (status message : string)     (* context.statusUpdate *)
| ConfigurationUpdate.                       (* context.configurationUpdate *)

Section Hooks.

Variable Object_entries : gmap string string -> list (string * string).

(** [onSetEnabled(enabled)].  [handle] and [env] are what
    [startQuotaMonitor] meets if it is called.  The first component of the
    trace is that of the monitor's first run, which is started and not
    awaited; the second is what the hook itself sends. *)
Definition onSetEnabled (enabled : bool) (handle : nat) (env : tick_env)
    (c : Closure) : Closure * list event * list host_event :=
  if enabled then
    if authenticated (state c) then
      let '(c', evs) := startQuotaMonitor Object_entries handle env c in
      (c', evs,
       [StatusUpdate "connected" "Microsoft Family plugin active";
        ConfigurationUpdate])
    else
      (c, [],
       [StatusUpdate "configured"
          "Microsoft Family plugin enabled but not authenticated";
        ConfigurationUpdate])
  else
    (stopQuotaMonitor c, [],
     [StatusUpdate "configured" "Microsoft Family plugin inactive";
      ConfigurationUpdate]).

(** [newState(newState)].  [linksChanged] is the outcome of
    [JSON.stringify(oldLinks) !== JSON.stringify(newLinks)], which also
    depends on the order in which the two objects list their keys. *)
Definition newState (st' : PluginState) (linksChanged : bool)
    (handle : nat) (env : tick_env) (c : Closure) : Closure * list event :=
  let c1 := {| state := st';
               familyService := familyService c;
               quotaMonitor := quotaMonitor c;
               timers := timers c |} in
  match quotaMonitor c with
  | Some _ =>
      if linksChanged then
        let c2 := stopQuotaMonitor c1 in
        if authenticated st' then startQuotaMonitor Object_entries handle env c2
        else (c2, [])
      else (c1, [])
  | None => (c1, [])
  end.

(** [onUnload(callback)], as far as the engine goes: the monitor is
    stopped ([familyService.close()] touches browser handles only). *)
Definition onUnload (c : Closure) : Closure := stopQuotaMonitor c.

(** The timer table holds the monitor's handle and nothing else. *)
Definition monitor_inv (c : Closure) : Prop :=
  timers c = match quotaMonitor c with
             | Some handle => {[ handle ]}
             | None => ∅
             end.

(** A lifecycle call, with what it meets. *)
Inductive hook : Type :=
| HookSetEnabled (enabled : bool) (handle : nat) (env : tick_env)
| HookNewState (st' : PluginState) (linksChanged : bool)
    (handle : nat) (env : tick_env)
| HookTimerFires (env : tick_env)
| HookSyncNow (bound : bound_state) (env : tick_env)
| HookUnload.

Definition run_hook (h : hook) (c : Closure) : Closure :=
  match h with
  | HookSetEnabled enabled handle env =>
      fst (fst (onSetEnabled enabled handle env c))
  | HookNewState st' linksChanged handle env =>
      fst (newState st' linksChanged handle env c)
  | HookTimerFires env => fst (quotaMonitorTick Object_entries env c)
  | HookSyncNow bound env => snd (fst (syncNow Object_entries bound env c))
  | HookUnload => onUnload c
  end.

Definition run_hooks (hs : list hook) (c : Closure) : Closure :=
  foldl (fun c' h => run_hook h c') c hs.

End Hooks.

End Lifecycle.

(** ** IPC handlers that call the client directly *)

Module Ipc.

Import MicrosoftFamilyService Plugin.

(** What a handler returns: [[null, result]] or [[{ message }]]. *)
Inductive ipc_reply (A : Type) : Type :=
| IpcResult (result : A)
| IpcError (message : string).
Arguments IpcResult {A} result.
Arguments IpcError {A} message.

Definition set_familyService (c : Closure) (svc : t) : Closure :=
  {| state := state c;
     familyService := svc;
     quotaMonitor := quotaMonitor c;
     timers := timers c |}.

(** ['msFamily.setScreenTime'] *)
Definition setScreenTime (msChildId : string) (minutes : Z) (env : push_env)
    (c : Closure) : ipc_reply SetResult * Closure * list event :=
  match setScreenTimeLimit (familyService c) msChildId minutes env with
  | (Returned result, svc', evs) =>
      (IpcResult result, set_familyService c svc', evs)
  | (Thrown msg, svc', evs) =>
      (IpcError msg, set_familyService c svc', evs)
  end.

(** ['msFamily.getScreenTime'] *)
Definition getScreenTime (msChildId : string) (env : fetch_env)
    (c : Closure) : ipc_reply ScreenTime * Closure * list event :=
  match MicrosoftFamilyService.getScreenTime (familyService c) msChildId
          false env with
  | (Returned screenTime, svc', evs) =>
      (IpcResult screenTime, set_familyService c svc', evs)
  | (Thrown msg, svc', evs) =>
      (IpcError msg, set_familyService c svc', evs)
  end.

End Ipc.

(** ** The ['msFamily.getChildren'] handler *)

Module IpcRoster.

Import MicrosoftFamilyService Roster Ipc.

(** [children.reduce((acc, child) => { acc[child.id] = child; return acc }, {})] *)
Definition indexChildren (children : list Member) : gmap string Member :=
  foldl (fun acc child => <[member_id child := child]> acc) ∅ children.

(** The handler, on the client and on [state.children]: the roster is
    asked for without forcing a refresh; on success [state.children] is
    replaced by the index of the list and the state is persisted. *)
Definition getChildren (env : roster_env) (c : client)
    (stateChildren : gmap string Member)
    : ipc_reply (list Member) * client * gmap string Member * list event :=
  match getFamilyMembers c false env with
  | (Returned children, c', evs) =>
      (IpcResult children, c', indexChildren children,
       evs ++ [EvConfigurationUpdate])
  | (Thrown msg, c', evs) =>
      (IpcError msg, c', stateChildren, evs)
  end.

End IpcRoster.

(** ** Further concrete configurations *)

Module Cases.

Import MicrosoftFamilyService Plugin Roster Lifecycle.

Definition parent_user : User :=
  {| user_userId := "ms-0";
     user_firstName := "Pat";
     user_lastName := Some "Doe";
     user_email := Some "pat@example.com";
     user_isChild := false;
     user_age := None;
     user_profilePictureUrl := None |}.

Definition child_user : User :=
  {| user_userId := "ms-1";
     user_firstName := "Alice";
     user_lastName := None;
     user_email := None;
     user_isChild := true;
     user_age := Some 12;
     user_profilePictureUrl := None |}.

(** A signed-in client that has not listed the family yet. *)
Definition client_fresh : client :=
  {| service := Scenarios.svc_cached; familyMembers := None |}.

(** [/getFamilyInfo] answers at [t] with the parent and one child. *)
Definition roster_at (t : Z) : roster_env :=
  {| roster_now_check := t;
     roster_now_cache := t;
     roster_now_request := t;
     roster_reply :=
       ApiOk (Some {| info_familyId := Some "family-9";
                      info_users := Some [parent_user; child_user] |});
     roster_now_stamp := t |}.

(** [/getFamilyInfo] answers at [t] without a family id. *)
Definition roster_invalid_at (t : Z) : roster_env :=
  {| roster_now_check := t;
     roster_now_cache := t;
     roster_now_request := t;
     roster_reply :=
       ApiOk (Some {| info_familyId := None;
                      info_users := Some [child_user] |});
     roster_now_stamp := t |}.

(** A persisted state that says "authenticated" and carries a token that
    ran out at [t = 900000]. *)
Definition stored_expired : StoredState :=
  {| stored_state := Scenarios.st_two;
     stored_accessToken := Some "token";
     stored_tokenExpiry := Some 900000 |}.

(** A persisted state with a token valid until [t = 4600000]. *)
Definition stored_valid : StoredState :=
  {| stored_state := Scenarios.st_two;
     stored_accessToken := Some "token";
     stored_tokenExpiry := Some 4600000 |}.

(** 50 minutes left (3000 seconds), read at time [t]. *)
Definition tick_50_at (t : Z) : tick_env :=
  {| tick_now_auth := t;
     tick_child :=
       fun _ => {| env_quota := QuotaData true 3000;
                   env_now_decide := t;
                   env_push := {| push_now_check := t;
                                  push_now_request := t;
                                  push_reply := ApiOk tt |};
                   env_now_update := t |};
     tick_now_end := t |}.

End Cases.

(** A remote call made for the Microsoft child [msChildId]. *)
Definition is_remote_call_for (msChildId : string) (e : event) : bool :=
  match e with
  | EvFetch _ userId _ => String.eqb userId msChildId
  | _ => false
  end.

(** * Properties *)

Import MicrosoftFamilyService Plugin.

(** Turn the integer tests of a goal into arithmetic facts. *)
Ltac zbool :=
  repeat match goal with
  | |- context [?a >? ?b] => rewrite (Z.gtb_ltb a b)
  | |- context [?a >=? ?b] => rewrite (Z.geb_leb a b)
  | |- context [?a <? ?b] => destruct (Z.ltb_spec a b)
  | |- context [?a <=? ?b] => destruct (Z.leb_spec a b)
  | |- context [?a =? ?b] => destruct (Z.eqb_spec a b)
  end; simpl.

(** ** The decision function *)

Section Strategy.

Implicit Types (st : PluginState) (q : QuotaEntry) (a : string).

Lemma or_num_nonzero (v d : Z) : v <> 0 -> or_num (Some v) d = v.
Proof. intros Hv. unfold or_num, truthy_num. zbool; [lia | reflexivity]. Qed.

Lemma or_num_zero (d : Z) : or_num (Some 0) d = d.
Proof. reflexivity. Qed.

Lemma oldMinutes_of_nonzero q n :
  allow2Minutes q <> 0 -> oldMinutes_of (Some q) n = allow2Minutes q.
Proof. intros H. unfold oldMinutes_of. simpl. by apply or_num_nonzero. Qed.

Lemma oldMinutes_of_zero q n :
  allow2Minutes q = 0 -> oldMinutes_of (Some q) n = n.
Proof. intros H. unfold oldMinutes_of. simpl. by rewrite H. Qed.

Lemma oldMinutes_of_missing n : oldMinutes_of None n = n.
Proof. reflexivity. Qed.

Lemma lastSync_of_entry q : lastSync_of (Some q) = lastSyncTime q.
Proof.
  unfold lastSync_of, or_num, truthy_num. simpl.
  destruct (Z.eqb_spec (lastSyncTime q) 0) as [->|]; reflexivity.
Qed.

(** [determineSyncStrategy] answers [true] exactly when one of its four
    rules fires. *)
Lemma determineSyncStrategy_syncReason st a n now :
  determineSyncStrategy st a n now = true
  <-> is_Some (syncReason (settings st) (quotaState st !! a) n now).
Proof.
  unfold determineSyncStrategy, syncReason.
  repeat match goal with
         | |- context [if ?c then _ else _] => destruct c
         end; split; intros H; try done; try (by eexists);
    by destruct H.
Qed.

(** Away from a stored [0], an increase is pushed whatever the clock
    says. *)
Lemma increase_pushes_from_nonzero st a q n now :
  quotaState st !! a = Some q ->
  allow2Minutes q <> 0 ->
  n > allow2Minutes q ->
  determineSyncStrategy st a n now = true.
Proof.
  intros Hq Hnz Hgt. unfold determineSyncStrategy.
  rewrite Hq, (oldMinutes_of_nonzero q n Hnz).
  zbool; first [reflexivity | lia].
Qed.

(** C1, at the input where the code departs from it: 0 minutes were
    pushed one second ago and the allowance is now 60 minutes, an increase
    over the last pushed value, yet [determineSyncStrategy] answers
    [false]. *)
Theorem increase_from_zero_not_pushed :
  quotaState Scenarios.st_exhausted !! "kid-1" = Some (pushedEntry 1000000 0)
  /\ 60 > lastSyncMinutes (pushedEntry 1000000 0)
  /\ 60 > allow2Minutes (pushedEntry 1000000 0)
  /\ determineSyncStrategy Scenarios.st_exhausted "kid-1" 60 1001000 = false
  /\ snd (checkAndEnforceQuotas Scenarios.created_12
            (Scenarios.tick_60_at 1001000)
            (Scenarios.st_exhausted, Scenarios.svc_cached))
     = [EvGetQuota "kid-1"; EvConfigurationUpdate].
Proof. repeat split. Qed.

(** C2: from a stored value greater than 0, a new value of 0 is pushed,
    whatever the last push time and the current time. *)
Theorem exhaustion_pushes st a q now :
  quotaState st !! a = Some q ->
  allow2Minutes q > 0 ->
  determineSyncStrategy st a 0 now = true.
Proof.
  intros Hq Hpos. unfold determineSyncStrategy.
  rewrite Hq, (oldMinutes_of_nonzero q 0) by lia.
  zbool; first [reflexivity | lia].
Qed.

Lemma exhaustion_pushes_witness :
  determineSyncStrategy Scenarios.st_45 "kid-1" 0 1000001 = true.
Proof.
  apply (exhaustion_pushes Scenarios.st_45 "kid-1" (pushedEntry 1000000 45)).
  - reflexivity.
  - simpl. lia.
Defined.

(** C9: an unchanged value at or above the aggressive threshold is not
    pushed before the normal interval has elapsed. *)
Theorem steady_state_waits st a q n now :
  quotaState st !! a = Some q ->
  n = allow2Minutes q ->
  now - lastSyncTime q < syncInterval (settings st) ->
  n >= aggressiveSyncThreshold (settings st) ->
  determineSyncStrategy st a n now = false.
Proof.
  intros Hq Heq Hint Hthr. unfold determineSyncStrategy.
  rewrite Hq, lastSync_of_entry.
  assert (oldMinutes_of (Some q) n = n) as ->.
  { destruct (Z.eq_dec (allow2Minutes q) 0) as [Hz|Hnz].
    - by apply oldMinutes_of_zero.
    - rewrite Heq. by apply oldMinutes_of_nonzero. }
  zbool; first [reflexivity | lia].
Qed.

Lemma steady_state_waits_witness :
  determineSyncStrategy Scenarios.st_45 "kid-1" 45 1300000 = false.
Proof.
  apply (steady_state_waits Scenarios.st_45 "kid-1" (pushedEntry 1000000 45)).
  - reflexivity.
  - reflexivity.
  - simpl. lia.
  - simpl. lia.
Defined.

(** Scenario A of the specification: 45 minutes pushed at [T0], 50
    minutes one second later. *)
Example scenario_A :
  determineSyncStrategy Scenarios.st_45 "kid-1" 50 1001000 = true.
Proof. reflexivity. Qed.

(** Scenario B of the specification: 25 minutes on a fresh link are due
    through the interval rules; once pushed they are not due five minutes
    later and due again after ten. *)
Example scenario_B :
  let linked := fst (linkChild "ms-1" "kid-1" Scenarios.st_signed_in) in
  let pushed := set_quotaState linked
                  (<["kid-1" := pushedEntry 1000000 25]> (quotaState linked)) in
  syncReason (settings linked) (quotaState linked !! "kid-1") 25 1000000
    = Some AggressiveSync
  /\ determineSyncStrategy pushed "kid-1" 25 1300000 = false
  /\ determineSyncStrategy pushed "kid-1" 25 1600000 = true.
Proof. repeat split. Qed.

End Strategy.

(** ** A stored value of 0 *)

Section ZeroState.

Implicit Types (st : PluginState) (q : QuotaEntry) (a ms : string).

Lemma syncReason_zero_state cfg q n now :
  allow2Minutes q = 0 ->
  syncReason cfg (Some q) n now <> Some QuotaIncreased
  /\ syncReason cfg (Some q) n now <> Some QuotaExhausted.
Proof.
  intros Hz. unfold syncReason.
  rewrite (oldMinutes_of_zero q n Hz).
  rewrite (Z.gtb_ltb n n), Z.ltb_irrefl.
  destruct (Z.eqb_spec n 0) as [->|Hn]; simpl;
    repeat match goal with
           | |- context [if ?c then _ else _] => destruct c
           end; split; discriminate.
Qed.

Lemma determineSyncStrategy_zero_state st a q n now :
  quotaState st !! a = Some q ->
  allow2Minutes q = 0 ->
  determineSyncStrategy st a n now = true
  <-> (n < aggressiveSyncThreshold (settings st)
       /\ now - lastSyncTime q >= aggressiveInterval)
      \/ now - lastSyncTime q >= syncInterval (settings st).
Proof.
  intros Hq Hz. unfold determineSyncStrategy.
  rewrite Hq, lastSync_of_entry, (oldMinutes_of_zero q n Hz).
  rewrite (Z.gtb_ltb n n), Z.ltb_irrefl.
  destruct (Z.eqb_spec n 0) as [->|Hn]; simpl;
    zbool; split; intros Hdue; first [reflexivity | discriminate | lia].
Qed.

(** From a stored 0, a value at or above the threshold that arrives
    before the normal interval has elapsed is not pushed, although it is
    an increase. *)
Lemma increase_from_zero_waits st a q n now :
  quotaState st !! a = Some q ->
  allow2Minutes q = 0 ->
  n > 0 ->
  n >= aggressiveSyncThreshold (settings st) ->
  now - lastSyncTime q < syncInterval (settings st) ->
  determineSyncStrategy st a n now = false.
Proof.
  intros Hq Hz Hpos Hthr Hearly.
  destruct (determineSyncStrategy st a n now) eqn:Hdue; [|done].
  apply (determineSyncStrategy_zero_state st a q n now Hq Hz) in Hdue. lia.
Qed.

Lemma linkChild_quotaState ms a st :
  quotaState (fst (linkChild ms a st)) !! a = Some zeroEntry.
Proof. simpl. apply lookup_insert_eq. Qed.

Lemma linkChild_childLinks ms a st :
  childLinks (fst (linkChild ms a st)) !! ms = Some a.
Proof. simpl. apply lookup_insert_eq. Qed.

(** C10: from a stored [allow2Minutes] of 0 the previous value is taken
    to be [newMinutes]; neither immediate rule fires, a push is due
    exactly when the aggressive or the normal interval has elapsed.  The
    entry written by [linkChild] and the entry written after pushing 0 are
    such states, and right after a link every [now] at or beyond the normal
    interval is due through an interval rule. *)
Theorem zero_state_only_interval_rules st a q n now :
  quotaState st !! a = Some q ->
  allow2Minutes q = 0 ->
  oldMinutes_of (quotaState st !! a) n = n
  /\ syncReason (settings st) (quotaState st !! a) n now <> Some QuotaIncreased
  /\ syncReason (settings st) (quotaState st !! a) n now <> Some QuotaExhausted
  /\ (determineSyncStrategy st a n now = true
      <-> (n < aggressiveSyncThreshold (settings st)
           /\ now - lastSyncTime q >= aggressiveInterval)
          \/ now - lastSyncTime q >= syncInterval (settings st))
  /\ (forall ms st0, allow2Minutes <$> quotaState (fst (linkChild ms a st0)) !! a = Some 0)
  /\ (forall t, allow2Minutes (pushedEntry t 0) = 0)
  /\ (forall ms st0 now',
        now' >= syncInterval (settings st0) ->
        let st1 := fst (linkChild ms a st0) in
        determineSyncStrategy st1 a n now' = true
        /\ (syncReason (settings st1) (quotaState st1 !! a) n now' = Some AggressiveSync
            \/ syncReason (settings st1) (quotaState st1 !! a) n now' = Some NormalSync)).
Proof.
  intros Hq Hz.
  split; [rewrite Hq; by apply oldMinutes_of_zero|].
  split; [rewrite Hq; by apply syncReason_zero_state|].
  split; [rewrite Hq; by apply syncReason_zero_state|].
  split; [by apply determineSyncStrategy_zero_state|].
  split; [intros ms st0; by rewrite linkChild_quotaState|].
  split; [reflexivity|].
  intros ms st0 now' Hnow st1.
  assert (Hl : quotaState st1 !! a = Some zeroEntry)
    by apply linkChild_quotaState.
  assert (Hdue : determineSyncStrategy st1 a n now' = true).
  { apply (determineSyncStrategy_zero_state st1 a zeroEntry n now' Hl eq_refl).
    right. simpl. lia. }
  split; [exact Hdue|].
  apply determineSyncStrategy_syncReason in Hdue as [r Hr].
  pose proof (syncReason_zero_state (settings st1) zeroEntry n now' eq_refl)
    as [Hinc Hexh].
  rewrite Hl in Hr |- *. rewrite Hr in Hinc, Hexh |- *.
  destruct r; [congruence | congruence | by left | by right].
Qed.

Lemma zero_state_only_interval_rules_witness :
  oldMinutes_of (quotaState Scenarios.st_exhausted !! "kid-1") 60 = 60
  /\ determineSyncStrategy Scenarios.st_exhausted "kid-1" 60 1600000 = true.
Proof.
  pose proof (zero_state_only_interval_rules Scenarios.st_exhausted "kid-1"
                (pushedEntry 1000000 0) 60 1600000 eq_refl eq_refl)
    as (Hold & _ & _ & Hdue & _).
  split; [exact Hold|].
  apply Hdue. right. simpl. lia.
Defined.

End ZeroState.

(** ** The cached client *)

Section Client.

Implicit Types (svc : MicrosoftFamilyService.t) (child : string).

Lemma apiRequest_events {R : Type} svc now endpoint userId limit
    (reply : api_reply R) (o : outcome R) evs :
  apiRequest svc now endpoint userId limit reply = (o, evs) ->
  evs = [] \/ evs = [EvFetch endpoint userId limit].
Proof.
  unfold apiRequest.
  destruct (isAuthenticated svc now); simpl; [destruct reply|];
    intros [= <- <-]; auto.
Qed.

(** A successful [setScreenTimeLimit] went through exactly one remote
    call and changed nothing but the pushed child's cache entry. *)
Lemma setScreenTimeLimit_returned svc child minutes env r svc' evs :
  setScreenTimeLimit svc child minutes env = (Returned r, svc', evs) ->
  svc' = set_cache svc (delete child (cache_screenTime svc))
  /\ evs = [EvFetch "/setScreenTimeLimit" child (Some minutes)]
  /\ set_dailyLimit r = minutes.
Proof.
  unfold setScreenTimeLimit, apiRequest.
  destruct (isAuthenticated svc (push_now_check env)); simpl; [|discriminate].
  destruct (isAuthenticated svc (push_now_request env)); simpl; [|discriminate].
  destruct (push_reply env); simpl; [|discriminate].
  intros [= <- <- <-]. auto.
Qed.

(** A failed [setScreenTimeLimit] leaves the client, cache included,
    untouched. *)
Lemma setScreenTimeLimit_thrown svc child minutes env msg svc' evs :
  setScreenTimeLimit svc child minutes env = (Thrown msg, svc', evs) ->
  svc' = svc.
Proof.
  unfold setScreenTimeLimit, apiRequest.
  destruct (isAuthenticated svc (push_now_check env)); simpl;
    [|by intros [= _ <- _]].
  destruct (isAuthenticated svc (push_now_request env)); simpl;
    [|by intros [= _ <- _]].
  destruct (push_reply env); simpl; [discriminate | by intros [= _ <- _]].
Qed.

Lemma isAuthenticated_set_cache svc c now :
  isAuthenticated (set_cache svc c) now = isAuthenticated svc now.
Proof. reflexivity. Qed.

Lemma cache_hit_missing svc child force now :
  cache_screenTime svc !! child = None -> cache_hit svc child force now = None.
Proof. intros H. unfold cache_hit. by rewrite H. Qed.

Lemma cache_hit_forced svc child now : cache_hit svc child true now = None.
Proof. unfold cache_hit. by destruct (cache_screenTime svc !! child). Qed.

(** C5: a successful [setScreenTimeLimit] deletes the child's cached
    snapshot and no other; the read that follows with
    [forceRefresh = false] misses the cache, behaves exactly as a forced
    refresh, and whatever it returns was built from the reply to a new
    remote request. *)
Theorem push_then_read_is_fresh svc child minutes penv r svc' evs :
  setScreenTimeLimit svc child minutes penv = (Returned r, svc', evs) ->
  cache_screenTime svc' !! child = None
  /\ (forall other, other <> child ->
        cache_screenTime svc' !! other = cache_screenTime svc !! other)
  /\ forall fenv,
       cache_hit svc' child false (fetch_now_cache fenv) = None
       /\ getScreenTime svc' child false fenv = getScreenTime svc' child true fenv
       /\ forall snapshot svc'' evs',
            getScreenTime svc' child false fenv = (Returned snapshot, svc'', evs') ->
            exists response,
              fetch_reply fenv = ApiOk response
              /\ snapshot = mkScreenTime child response (fetch_now_updated fenv)
              /\ evs' = [EvFetch "/getScreenTimeSettings" child None].
Proof.
  intros Hpush.
  apply setScreenTimeLimit_returned in Hpush as (-> & _ & _).
  assert (Hgone : cache_screenTime
                    (set_cache svc (delete child (cache_screenTime svc)))
                  !! child = None) by apply lookup_delete_eq.
  split; [exact Hgone|].
  split; [intros other Hne; simpl; by apply lookup_delete_ne|].
  intros fenv.
  set (svc1 := set_cache svc (delete child (cache_screenTime svc))) in *.
  assert (Hmiss : cache_hit svc1 child false (fetch_now_cache fenv) = None)
    by (by apply cache_hit_missing).
  split; [exact Hmiss|].
  split.
  { unfold getScreenTime. by rewrite Hmiss, cache_hit_forced. }
  intros snapshot svc'' evs'. unfold getScreenTime, apiRequest. rewrite Hmiss.
  destruct (isAuthenticated svc1 (fetch_now_check fenv)); simpl; [|discriminate].
  destruct (isAuthenticated svc1 (fetch_now_request fenv)); simpl; [|discriminate].
  destruct (fetch_reply fenv) as [response|msg]; simpl; [|discriminate].
  intros [= <- <- <-]. by exists response.
Qed.

Lemma push_then_read_is_fresh_witness :
  let svc' := set_cache Scenarios.svc_cached
                (delete "ms-1" (cache_screenTime Scenarios.svc_cached)) in
  cache_hit Scenarios.svc_cached "ms-1" false 1000001
    = Some Scenarios.snapshot_120
  /\ cache_screenTime svc' !! "ms-1" = None
  /\ getScreenTime svc' "ms-1" false Scenarios.fetch_after
     = getScreenTime svc' "ms-1" true Scenarios.fetch_after.
Proof.
  pose proof (push_then_read_is_fresh Scenarios.svc_cached "ms-1" 60
                Scenarios.push_ok _ _ _ eq_refl) as (Hgone & _ & Hread).
  split; [reflexivity|].
  split; [exact Hgone|].
  exact (proj1 (proj2 (Hread Scenarios.fetch_after))).
Defined.

End Client.

(** ** One pass over the links *)

Section Loop.

Implicit Types (st : PluginState) (svc : MicrosoftFamilyService.t)
  (p : PluginState * MicrosoftFamilyService.t)
  (ms a : string) (env : child_env) (envs : string -> child_env)
  (l : list (string * string)).

(** An iteration touches at most the quota entry of its own Allow2
    child and the client's cache. *)
Lemma enforceChild_frame env ms a p :
  let p' := fst (enforceChild env ms a p) in
  settings (fst p') = settings (fst p)
  /\ childLinks (fst p') = childLinks (fst p)
  /\ authenticated (fst p') = authenticated (fst p)
  /\ lastSync (fst p') = lastSync (fst p)
  /\ (forall a', a' <> a -> quotaState (fst p') !! a' = quotaState (fst p) !! a')
  /\ accessToken (snd p') = accessToken (snd p)
  /\ tokenExpiry (snd p') = tokenExpiry (snd p).
Proof.
  destruct p as [st svc]. unfold enforceChild.
  destruct (env_quota env) as [| |allowed secs]; simpl; try by repeat split.
  destruct (determineSyncStrategy _ _ _ _); simpl; [|by repeat split].
  destruct (setScreenTimeLimit _ _ _ _) as [[[r|msg] svc'] evs] eqn:Hpush; simpl.
  - apply setScreenTimeLimit_returned in Hpush as (-> & _ & _).
    repeat split. intros a' Hne. by apply lookup_insert_ne.
  - apply setScreenTimeLimit_thrown in Hpush as ->. by repeat split.
Qed.

(** Every iteration starts by asking the quota source. *)
Lemma enforceChild_asks_quota env ms a p :
  EvGetQuota a ∈ snd (enforceChild env ms a p).
Proof.
  destruct p as [st svc]. unfold enforceChild.
  destruct (env_quota env) as [| |allowed secs]; simpl; try by left.
  destruct (determineSyncStrategy _ _ _ _); simpl; [|by left].
  destruct (setScreenTimeLimit _ _ _ _) as [[[r|msg] svc'] evs]; simpl; by left.
Qed.

(** What an iteration does to the state, read off [push_attempt]: the
    entry is written exactly after a push that returned. *)
Lemma enforceChild_push_attempt env ms a p :
  fst (fst (enforceChild env ms a p))
  = match push_attempt env ms a p with
    | Some (minutes, Returned _) =>
        set_quotaState (fst p)
          (<[a := pushedEntry (env_now_update env) minutes]>
             (quotaState (fst p)))
    | _ => fst p
    end.
Proof.
  destruct p as [st svc]. unfold enforceChild, push_attempt. cbn [fst snd].
  destruct (env_quota env) as [| |allowed secs]; try done.
  destruct (determineSyncStrategy _ _ _ _); [|done].
  by destruct (setScreenTimeLimit _ _ _ _) as [[[r|msg] svc'] evs].
Qed.

(** A push that throws leaves state and client as they were; what
    remains of the iteration is the quota request, at most one remote
    call, and the error report. *)
Lemma enforceChild_push_fails env ms a p :
  push_fails env ms a p ->
  fst (enforceChild env ms a p) = p
  /\ exists minutes,
       snd (enforceChild env ms a p)
         = [EvGetQuota a; EvConsoleError ms]
       \/ snd (enforceChild env ms a p)
         = [EvGetQuota a; EvFetch "/setScreenTimeLimit" ms (Some minutes);
            EvConsoleError ms].
Proof.
  destruct p as [st svc]. intros (minutes & msg & Hatt).
  unfold push_attempt in Hatt. unfold enforceChild. simpl in Hatt.
  destruct (env_quota env) as [| |allowed secs]; try discriminate.
  destruct (determineSyncStrategy _ _ _ _); [|discriminate].
  destruct (setScreenTimeLimit _ _ _ _) as [[o svc'] evs] eqn:Hpush.
  simpl in Hatt. injection Hatt as <- ->.
  pose proof Hpush as ->%setScreenTimeLimit_thrown.
  split; [reflexivity|]. exists (remainingMinutes_of allowed secs). simpl.
  unfold setScreenTimeLimit in Hpush.
  destruct (isAuthenticated svc (push_now_check (env_push env)));
    simpl in Hpush; [|inversion Hpush; subst; by left].
  destruct (apiRequest _ _ _ _ _ _) as [[?|?] evs0] eqn:Hreq; [discriminate|].
  inversion Hpush; subst.
  apply apiRequest_events in Hreq as [->| ->]; [by left | by right].
Qed.

Lemma enforceEntries_app envs l1 l2 p :
  enforceEntries envs (l1 ++ l2) p
  = (fst (enforceEntries envs l2 (fst (enforceEntries envs l1 p))),
     snd (enforceEntries envs l1 p)
     ++ snd (enforceEntries envs l2 (fst (enforceEntries envs l1 p)))).
Proof.
  revert p. induction l1 as [|[ms a] l1 IH]; intros p; simpl.
  - by destruct (enforceEntries envs l2 p).
  - destruct (enforceChild (envs ms) ms a p) as [p1 evs1].
    rewrite IH.
    destruct (enforceEntries envs l1 p1) as [p2 evs2]; simpl.
    destruct (enforceEntries envs l2 p2) as [p3 evs3]; simpl.
    by rewrite app_assoc.
Qed.

Lemma enforceEntries_cons envs ms a l p :
  enforceEntries envs ((ms, a) :: l) p
  = (fst (enforceEntries envs l (fst (enforceChild (envs ms) ms a p))),
     snd (enforceChild (envs ms) ms a p)
     ++ snd (enforceEntries envs l (fst (enforceChild (envs ms) ms a p)))).
Proof.
  simpl. destruct (enforceChild (envs ms) ms a p) as [p1 evs1]; simpl.
  by destruct (enforceEntries envs l p1).
Qed.

(** The pass leaves alone what no iteration owns. *)
Lemma enforceEntries_frame envs l p :
  let p' := fst (enforceEntries envs l p) in
  settings (fst p') = settings (fst p)
  /\ childLinks (fst p') = childLinks (fst p)
  /\ authenticated (fst p') = authenticated (fst p)
  /\ lastSync (fst p') = lastSync (fst p)
  /\ (forall a', a' ∉ l.*2 -> quotaState (fst p') !! a' = quotaState (fst p) !! a').
Proof.
  revert p. induction l as [|[ms a] l IH]; intros p.
  - by repeat split.
  - rewrite enforceEntries_cons. cbn zeta. simpl fst.
    destruct (enforceChild_frame (envs ms) ms a p)
      as (Hs & Hl & Ha & Hls & Hq & _).
    destruct (IH (fst (enforceChild (envs ms) ms a p)))
      as (Hs' & Hl' & Ha' & Hls' & Hq').
    cbn zeta in *.
    split; [congruence|]. split; [congruence|].
    split; [congruence|]. split; [congruence|].
    intros a' Hnot. rewrite fmap_cons, not_elem_of_cons in Hnot.
    destruct Hnot as [Hne Hnot]. simpl in Hne.
    rewrite Hq' by done. by apply Hq.
Qed.

(** Every link of the snapshot is evaluated. *)
Lemma enforceEntries_asks_quota envs l p ms a :
  (ms, a) ∈ l -> EvGetQuota a ∈ snd (enforceEntries envs l p).
Proof.
  revert p. induction l as [|[ms0 a0] l IH]; intros p Hin.
  - by apply elem_of_nil in Hin.
  - rewrite enforceEntries_cons. simpl snd. apply elem_of_app.
    apply elem_of_cons in Hin as [[= -> ->]|Hin].
    + left. apply enforceChild_asks_quota.
    + right. by apply IH.
Qed.

(** The pass never touches the client's credentials. *)
Lemma enforceEntries_credentials envs l p now :
  isAuthenticated (snd (fst (enforceEntries envs l p))) now
  = isAuthenticated (snd p) now.
Proof.
  revert p. induction l as [|[ms a] l IH]; intros p; [done|].
  rewrite enforceEntries_cons. cbn [fst snd]. rewrite IH.
  destruct (enforceChild_frame (envs ms) ms a p)
    as (_ & _ & _ & _ & _ & Htok & Hexp).
  cbn zeta in Htok, Hexp. unfold isAuthenticated. by rewrite Htok, Hexp.
Qed.

(** An iteration that finds a push due and a client whose token is
    valid at both guards issues the remote request. *)
Lemma enforceChild_due_fetches env ms a p :
  due env a (fst p) = true ->
  isAuthenticated (snd p) (push_now_check (env_push env)) = true ->
  isAuthenticated (snd p) (push_now_request (env_push env)) = true ->
  EvFetch "/setScreenTimeLimit" ms (Some (push_minutes env))
    ∈ snd (enforceChild env ms a p).
Proof.
  destruct p as [st svc]. unfold due, push_minutes, enforceChild.
  cbn [fst snd].
  destruct (env_quota env) as [| |allowed secs]; try discriminate.
  intros -> Hcheck Hreq.
  unfold setScreenTimeLimit, apiRequest. rewrite Hcheck, Hreq. simpl.
  destruct (push_reply (env_push env)); simpl; right; by left.
Qed.

(** The same, for the link met after the links [l1] of a pass. *)
Lemma enforceEntries_due_fetches envs l1 ms a l2 p :
  due (envs ms) a (fst (fst (enforceEntries envs l1 p))) = true ->
  isAuthenticated (snd p) (push_now_check (env_push (envs ms))) = true ->
  isAuthenticated (snd p) (push_now_request (env_push (envs ms))) = true ->
  EvFetch "/setScreenTimeLimit" ms (Some (push_minutes (envs ms)))
    ∈ snd (enforceEntries envs (l1 ++ (ms, a) :: l2) p).
Proof.
  intros Hdue Hcheck Hreq.
  rewrite enforceEntries_app, enforceEntries_cons. cbn [fst snd].
  rewrite !elem_of_app. right. left.
  apply enforceChild_due_fetches; [done| |];
    by rewrite enforceEntries_credentials.
Qed.

End Loop.

(** ** A push that fails inside a tick *)

Section FailedPush.

Variable Object_entries : gmap string string -> list (string * string).

Implicit Types (st : PluginState) (svc : MicrosoftFamilyService.t)
  (ms a : string) (env : tick_env) (l : list (string * string)).

Lemma checkAndEnforceQuotas_running env st svc :
  authenticated st = true ->
  isAuthenticated svc (tick_now_auth env) = true ->
  checkAndEnforceQuotas Object_entries env (st, svc)
  = (let r := enforceEntries (tick_child env)
                (Object_entries (childLinks st)) (st, svc) in
     ((set_lastSync (fst (fst r)) (tick_now_end env), snd (fst r)),
      snd r ++ [EvConfigurationUpdate])).
Proof.
  intros Ha Hs. unfold checkAndEnforceQuotas. rewrite Ha, Hs. simpl.
  by destruct (enforceEntries _ _ _) as [[st' svc'] evs].
Qed.

Lemma entries_linked st ms a :
  Object_entries (childLinks st) ≡ₚ map_to_list (childLinks st) ->
  (ms, a) ∈ Object_entries (childLinks st) <-> childLinks st !! ms = Some a.
Proof. intros Hperm. rewrite Hperm. apply elem_of_map_to_list. Qed.

Lemma entries_NoDup st :
  Object_entries (childLinks st) ≡ₚ map_to_list (childLinks st) ->
  NoDup (Object_entries (childLinks st)).*1.
Proof. intros Hperm. rewrite Hperm. apply NoDup_fst_map_to_list. Qed.

(** C3, as the code has it: when the push for a link throws, the
    iteration leaves state and client exactly as it found them, the loop
    carries on with the remaining links from that very state, every link
    of the tick is evaluated, and the entry of the failing link's Allow2
    child is after the tick what it was before, as long as no other link
    points to the same Allow2 child. *)
Theorem failed_push_is_isolated env st svc l1 ms a l2 :
  authenticated st = true ->
  isAuthenticated svc (tick_now_auth env) = true ->
  Object_entries (childLinks st) ≡ₚ map_to_list (childLinks st) ->
  Object_entries (childLinks st) = l1 ++ (ms, a) :: l2 ->
  let before := enforceEntries (tick_child env) l1 (st, svc) in
  let failing := enforceChild (tick_child env ms) ms a (fst before) in
  let after := enforceEntries (tick_child env) l2 (fst before) in
  let result := checkAndEnforceQuotas Object_entries env (st, svc) in
  push_fails (tick_child env ms) ms a (fst before) ->
  fst failing = fst before
  /\ fst result
     = (set_lastSync (fst (fst after)) (tick_now_end env), snd (fst after))
  /\ snd result
     = snd before ++ snd failing ++ snd after ++ [EvConfigurationUpdate]
  /\ (forall ms' a', childLinks st !! ms' = Some a' ->
        EvGetQuota a' ∈ snd result)
  /\ (forall k1 ms' a' k2,
        Object_entries (childLinks st) = k1 ++ (ms', a') :: k2 ->
        due (tick_child env ms') a'
          (fst (fst (enforceEntries (tick_child env) k1 (st, svc)))) = true ->
        isAuthenticated svc (push_now_check (env_push (tick_child env ms')))
          = true ->
        isAuthenticated svc (push_now_request (env_push (tick_child env ms')))
          = true ->
        EvFetch "/setScreenTimeLimit" ms'
          (Some (push_minutes (tick_child env ms'))) ∈ snd result)
  /\ ((forall ms', childLinks st !! ms' = Some a -> ms' = ms) ->
      quotaState (fst (fst result)) !! a = quotaState st !! a).
Proof.
  intros Hauth Hsvc Hperm Hsplit before failing after result Hfail.
  destruct (enforceChild_push_fails _ _ _ _ Hfail) as [Hsame _].
  fold failing in Hsame.
  assert (Hrun : enforceEntries (tick_child env) (Object_entries (childLinks st))
                   (st, svc)
                 = (fst after, snd before ++ snd failing ++ snd after)).
  { rewrite Hsplit, enforceEntries_app, enforceEntries_cons.
    fold before. fold failing. rewrite Hsame. reflexivity. }
  assert (Hres : result
                 = ((set_lastSync (fst (fst after)) (tick_now_end env),
                     snd (fst after)),
                    (snd before ++ snd failing ++ snd after)
                    ++ [EvConfigurationUpdate])).
  { unfold result. rewrite checkAndEnforceQuotas_running by done.
    by rewrite Hrun. }
  assert (Hrun' : snd (enforceEntries (tick_child env)
                         (Object_entries (childLinks st)) (st, svc))
                  = snd before ++ snd failing ++ snd after)
    by (by rewrite Hrun).
  split; [exact Hsame|].
  split; [by rewrite Hres|].
  split; [rewrite Hres; simpl; by rewrite <- !app_assoc|].
  split; [|split].
  - intros ms' a' Hlink. apply (entries_linked st ms' a' Hperm) in Hlink.
    rewrite Hres. simpl. apply elem_of_app. left.
    pose proof (enforceEntries_asks_quota (tick_child env) _ (st, svc)
                  ms' a' Hlink) as Hasked.
    by rewrite Hrun in Hasked.
  - intros k1 ms' a' k2 Hsplit' Hdue Hcheck Hreq.
    rewrite Hres. cbn [snd]. apply elem_of_app. left. rewrite <- Hrun'.
    rewrite Hsplit'. by apply enforceEntries_due_fetches.
  - intros Honly. rewrite Hres. simpl.
    pose proof (entries_NoDup st Hperm) as Hnd.
    rewrite Hsplit, fmap_app, fmap_cons in Hnd. simpl in Hnd.
    apply NoDup_app in Hnd as (_ & Hdisj & Hnd2).
    apply NoDup_cons in Hnd2 as [Hnot2 _].
    assert (Hown : forall l, l ⊆ Object_entries (childLinks st) ->
              ms ∉ l.*1 -> a ∉ l.*2).
    { intros l Hsub Hms Ha.
      apply list_elem_of_fmap in Ha as ([ms' a'] & Heq & Hin). simpl in Heq.
      subst a'. pose proof (Hsub _ Hin) as Hin'.
      apply (entries_linked st ms' a Hperm), Honly in Hin'. subst ms'.
      apply Hms. apply list_elem_of_fmap. by exists (ms, a). }
    assert (Hl1 : a ∉ l1.*2).
    { apply Hown.
      - rewrite Hsplit. intros x Hx. apply elem_of_app. by left.
      - intros Hin. apply (Hdisj ms Hin). by left. }
    assert (Hl2 : a ∉ l2.*2).
    { apply Hown; [|done].
      rewrite Hsplit. intros x Hx. apply elem_of_app. right. by right. }
    destruct (enforceEntries_frame (tick_child env) l2 (fst before))
      as (_ & _ & _ & _ & Hq2).
    destruct (enforceEntries_frame (tick_child env) l1 (st, svc))
      as (_ & _ & _ & _ & Hq1).
    cbn zeta in Hq1, Hq2. fold before in Hq1. fold after in Hq2.
    rewrite Hq2 by done. by rewrite Hq1.
Qed.

End FailedPush.

Lemma created_12_st_two :
  Scenarios.created_12 (childLinks Scenarios.st_two)
  ≡ₚ map_to_list (childLinks Scenarios.st_two).
Proof. vm_compute. first [reflexivity | apply perm_swap]. Defined.

Lemma failed_push_is_isolated_witness :
  let result :=
    checkAndEnforceQuotas Scenarios.created_12 Scenarios.tick_ms1_fails
      (Scenarios.st_two, Scenarios.svc_cached) in
  quotaState (fst (fst result)) !! "kid-1" = Some zeroEntry
  /\ quotaState (fst (fst result)) !! "kid-2" = Some (pushedEntry 1000000 25)
  /\ EvGetQuota "kid-2" ∈ snd result
  /\ EvFetch "/setScreenTimeLimit" "ms-2" (Some 25) ∈ snd result.
Proof.
  assert (Hfail : push_fails (tick_child Scenarios.tick_ms1_fails "ms-1")
                    "ms-1" "kid-1" (Scenarios.st_two, Scenarios.svc_cached)).
  { exists 25, "API request failed: 500 Internal Server Error". reflexivity. }
  destruct (failed_push_is_isolated Scenarios.created_12
              Scenarios.tick_ms1_fails Scenarios.st_two Scenarios.svc_cached
              [] "ms-1" "kid-1" [("ms-2", "kid-2")]
              eq_refl eq_refl created_12_st_two eq_refl Hfail)
    as (_ & _ & _ & Hasked & Hpushed & Hkept).
  split.
  - rewrite Hkept; [reflexivity|].
    intros ms'. vm_compute.
    destruct (decide (ms' = "ms-1")) as [->|Hne]; [done|].
    intros Hlink. exfalso.
    change (childLinks Scenarios.st_two !! ms' = Some "kid-1") in Hlink.
    unfold Scenarios.st_two in Hlink. simpl in Hlink.
    apply lookup_insert_Some in Hlink as [[_ [=]]|[_ Hlink]].
    apply lookup_insert_Some in Hlink as [[<- _]|[_ Hlink]]; [done|].
    by rewrite lookup_empty in Hlink.
  - split; [reflexivity|].
    split; [apply (Hasked "ms-2"); reflexivity|].
    apply (Hpushed [("ms-1", "kid-1")] "ms-2" "kid-2" []); reflexivity.
Defined.

(** Scenario C, run: the refused push for ["ms-1"] is reported, the push
    for ["ms-2"] goes through in the same tick. *)
Example scenario_C_trace :
  snd (checkAndEnforceQuotas Scenarios.created_12 Scenarios.tick_ms1_fails
         (Scenarios.st_two, Scenarios.svc_cached))
  = [EvGetQuota "kid-1";
     EvFetch "/setScreenTimeLimit" "ms-1" (Some 25);
     EvConsoleError "ms-1";
     EvGetQuota "kid-2";
     EvFetch "/setScreenTimeLimit" "ms-2" (Some 25);
     EvConfigurationUpdate;
     EvConfigurationUpdate].
Proof. reflexivity. Qed.

(** C3 as worded, refuted: ["ms-1"] and ["ms-2"] are both linked to
    ["kid-1"]; the push for ["ms-1"] throws, yet after the tick the quota
    entry of ["kid-1"] is no longer what it was, because the accepted push
    for ["ms-2"] wrote it. *)
Lemma shared_entry_rewritten_despite_failed_push :
  let result :=
    checkAndEnforceQuotas Scenarios.created_12 Scenarios.tick_ms1_fails
      (Scenarios.st_shared, Scenarios.svc_cached) in
  childLinks Scenarios.st_shared !! "ms-1" = Some "kid-1"
  /\ push_fails (tick_child Scenarios.tick_ms1_fails "ms-1") "ms-1" "kid-1"
       (Scenarios.st_shared, Scenarios.svc_cached)
  /\ quotaState Scenarios.st_shared !! "kid-1" = Some zeroEntry
  /\ quotaState (fst (fst result)) !! "kid-1" = Some (pushedEntry 1000000 25)
  /\ quotaState (fst (fst result)) !! "kid-1"
     <> quotaState Scenarios.st_shared !! "kid-1".
Proof.
  split; [reflexivity|].
  split; [exists 25, "API request failed: 500 Internal Server Error"; reflexivity|].
  split; [reflexivity|].
  split; [reflexivity|].
  vm_compute. discriminate.
Qed.

(** ** A tick without credentials *)

Section Unauthenticated.

Variable Object_entries : gmap string string -> list (string * string).

Lemma with_engine_same (c : Closure) :
  with_engine c (state c, familyService c) = c.
Proof. by destruct c. Qed.

(** C4: when the engine is not authenticated as the tick begins
    (the flag of the state is off, or the client has no valid token),
    [checkAndEnforceQuotas] returns at once: no event at all, hence no
    remote call, and state and client are returned as they were.  The
    interval callback therefore leaves the whole closure as it was, with
    its timer handle still registered, and the next firing of the timer
    starts from the same closure. *)
Theorem unauthenticated_tick_is_skipped (env : tick_env) (c : Closure) :
  authenticated (state c) = false
  \/ isAuthenticated (familyService c) (tick_now_auth env) = false ->
  checkAndEnforceQuotas Object_entries env (state c, familyService c)
  = ((state c, familyService c), [])
  /\ quotaMonitorTick Object_entries env c = (c, [])
  /\ quotaState (state (fst (quotaMonitorTick Object_entries env c)))
     = quotaState (state c)
  /\ lastSync (state (fst (quotaMonitorTick Object_entries env c)))
     = lastSync (state c)
  /\ filter (fun e => is_remote_call e = true)
       (snd (quotaMonitorTick Object_entries env c)) = []
  /\ quotaMonitor (fst (quotaMonitorTick Object_entries env c)) = quotaMonitor c
  /\ timers (fst (quotaMonitorTick Object_entries env c)) = timers c
  /\ (forall env',
        quotaMonitorTick Object_entries env'
          (fst (quotaMonitorTick Object_entries env c))
        = quotaMonitorTick Object_entries env' c)
  /\ forall handle,
       quotaMonitor c = None ->
       startQuotaMonitor Object_entries handle env c
       = ({| state := state c;
             familyService := familyService c;
             quotaMonitor := Some handle;
             timers := {[handle]} ∪ timers c |}, []).
Proof.
  intros Hnot.
  assert (Hskip : checkAndEnforceQuotas Object_entries env
                    (state c, familyService c)
                  = ((state c, familyService c), [])).
  { unfold checkAndEnforceQuotas.
    destruct Hnot as [-> | ->]; [reflexivity|].
    by rewrite orb_true_r. }
  assert (Htick : quotaMonitorTick Object_entries env c = (c, [])).
  { unfold quotaMonitorTick. rewrite Hskip. by rewrite with_engine_same. }
  rewrite Htick. do 8 (split; [done|]).
  intros handle Hnone. unfold startQuotaMonitor, quotaMonitorTick.
  rewrite Hnone. cbn [state familyService]. by rewrite Hskip.
Qed.

End Unauthenticated.

Lemma unauthenticated_tick_is_skipped_witness :
  quotaMonitorTick Scenarios.created_12 Scenarios.tick_ms1_fails
    Scenarios.closure_expired
  = (Scenarios.closure_expired, [])
  /\ quotaMonitor
       (fst (quotaMonitorTick Scenarios.created_12 Scenarios.tick_ms1_fails
               Scenarios.closure_expired))
     = Some 7%nat.
Proof.
  assert (Hexpired :
            authenticated (state Scenarios.closure_expired) = false
            \/ isAuthenticated (familyService Scenarios.closure_expired)
                 (tick_now_auth Scenarios.tick_ms1_fails) = false).
  { right. reflexivity. }
  destruct (unauthenticated_tick_is_skipped Scenarios.created_12
              Scenarios.tick_ms1_fails Scenarios.closure_expired Hexpired)
    as (_ & Htick & _ & _ & _ & Hmonitor & _ & _).
  split; [exact Htick | exact Hmonitor].
Defined.

(** ** Notifications *)

Section Notifications.

Implicit Types (st : PluginState) (svc : MicrosoftFamilyService.t)
  (p : PluginState * MicrosoftFamilyService.t)
  (ms a : string) (n : notice) (m : Z).

Lemma setScreenTimeLimit_events svc ms m env o svc' evs :
  setScreenTimeLimit svc ms m env = (o, svc', evs) ->
  evs = [] \/ evs = [EvFetch "/setScreenTimeLimit" ms (Some m)].
Proof.
  unfold setScreenTimeLimit.
  destruct (isAuthenticated svc (push_now_check env)); simpl;
    [|intros [= _ _ <-]; by left].
  destruct (apiRequest _ _ _ _ _ _) as [[?|?] evs0] eqn:Hreq;
    intros [= _ _ <-]; by apply apiRequest_events in Hreq.
Qed.

(** Which notice follows a successful push of [m] minutes. *)
Lemma quotaNotification_spec ms m n :
  EvNotification n ∈ quotaNotification ms m
  <-> (0 < m < 10 /\ n = LowScreenTime ms m)
      \/ (m = 0 /\ n = ScreenTimeExhausted ms).
Proof.
  unfold quotaNotification. rewrite (Z.gtb_ltb m 0).
  destruct (Z.ltb_spec m 10) as [Hlt|Hge], (Z.ltb_spec 0 m) as [Hpos|Hnp],
    (Z.eqb_spec m 0) as [Hz|Hnz]; simpl;
    rewrite ?list_elem_of_singleton, ?elem_of_nil; try lia;
    (split; [intros Hn | intros [[Hr Hn]|[Hr Hn]]]); try lia; try done.
  - injection Hn as ->. left. split; [lia|reflexivity].
  - by subst n.
  - injection Hn as ->. by right.
  - by subst n.
Qed.

Lemma quotaNotification_is_notice ms m e :
  e ∈ quotaNotification ms m -> exists n, e = EvNotification n.
Proof.
  unfold quotaNotification.
  destruct ((m <? 10) && (m >? 0));
    [intros ->%list_elem_of_singleton; by eexists|].
  destruct (m =? 0); [intros ->%list_elem_of_singleton; by eexists|].
  by intros ?%elem_of_nil.
Qed.

(** One iteration notifies only after its own successful push, and
    then according to the minutes just pushed. *)
Lemma enforceChild_notification (env : child_env) ms a p n :
  EvNotification n ∈ snd (enforceChild env ms a p)
  <-> exists m,
        push_succeeds env ms a p m
        /\ ((0 < m < 10 /\ n = LowScreenTime ms m)
            \/ (m = 0 /\ n = ScreenTimeExhausted ms)).
Proof.
  destruct p as [st svc]. unfold push_succeeds, push_attempt, enforceChild.
  simpl fst. simpl snd.
  destruct (env_quota env) as [| |allowed secs].
  - split; [|by intros (? & [? [=]] & _)].
    simpl. rewrite !elem_of_cons, elem_of_nil. intros [[=]|[[=]|[]]].
  - split; [|by intros (? & [? [=]] & _)].
    simpl. rewrite !elem_of_cons, elem_of_nil. intros [[=]|[]].
  - destruct (determineSyncStrategy _ _ _ _).
    2:{ split; [|by intros (? & [? [=]] & _)].
        simpl. rewrite !elem_of_cons, elem_of_nil. intros [[=]|[]]. }
    destruct (setScreenTimeLimit _ _ _ _) as [[[r|msg] svc'] evs] eqn:Hpush;
      pose proof (setScreenTimeLimit_events _ _ _ _ _ _ _ Hpush) as Hevs;
      simpl.
    + rewrite elem_of_cons, !elem_of_app, elem_of_cons, quotaNotification_spec.
      split.
      * intros [[=]|[Hin|[[=]|Hn]]].
        -- destruct Hevs as [-> | ->];
             [by apply elem_of_nil in Hin|].
           by apply list_elem_of_singleton in Hin.
        -- exists (remainingMinutes_of allowed secs). split; [by exists r|done].
      * intros (m & [r' [= <- _]] & Hn). right. right. by right.
    + split; [|by intros (? & [? [=]] & _)].
      rewrite elem_of_cons, !elem_of_app. intros [[=]|[Hin|Hin]].
      * destruct Hevs as [-> | ->]; [by apply elem_of_nil in Hin|].
        by apply list_elem_of_singleton in Hin.
      * by apply list_elem_of_singleton in Hin.
Qed.

(** A notice in the trace of a pass comes from one of its iterations. *)
Lemma enforceEntries_notification envs (l : list (string * string)) p n :
  EvNotification n ∈ snd (enforceEntries envs l p)
  <-> exists l1 ms a l2,
        l = l1 ++ (ms, a) :: l2
        /\ EvNotification n
             ∈ snd (enforceChild (envs ms) ms a
                      (fst (enforceEntries envs l1 p))).
Proof.
  split.
  - revert p. induction l as [|[ms a] l IH]; intros p.
    + simpl. by intros ?%elem_of_nil.
    + rewrite enforceEntries_cons. simpl snd. rewrite elem_of_app.
      intros [Hin|Hin].
      * by exists [], ms, a, l.
      * destruct (IH _ Hin) as (l1 & ms' & a' & l2 & -> & Hin').
        exists ((ms, a) :: l1), ms', a', l2. split; [done|].
        by rewrite enforceEntries_cons.
  - intros (l1 & ms & a & l2 & -> & Hin).
    rewrite enforceEntries_app, enforceEntries_cons. cbn [fst snd].
    rewrite !elem_of_app. right. by left.
Qed.

End Notifications.

Section NotificationsOfTick.

Variable Object_entries : gmap string string -> list (string * string).

(** C6, as the code has it: a tick emits a notice for a child only
    when the push for that child succeeded in this tick; the notice is
    the low-allowance one exactly when the minutes just pushed lie strictly
    between 0 and 10, and the exhausted one exactly when they are 0,
    whatever value had been pushed before. *)
Theorem notification_iff_successful_push (env : tick_env)
    (st : PluginState) (svc : MicrosoftFamilyService.t) (n : notice) :
  EvNotification n
    ∈ snd (checkAndEnforceQuotas Object_entries env (st, svc))
  <-> authenticated st = true
      /\ isAuthenticated svc (tick_now_auth env) = true
      /\ exists l1 ms a l2 m,
           Object_entries (childLinks st) = l1 ++ (ms, a) :: l2
           /\ push_succeeds (tick_child env ms) ms a
                (fst (enforceEntries (tick_child env) l1 (st, svc))) m
           /\ ((0 < m < 10 /\ n = LowScreenTime ms m)
               \/ (m = 0 /\ n = ScreenTimeExhausted ms)).
Proof.
  destruct (authenticated st) eqn:Hauth.
  2:{ unfold checkAndEnforceQuotas. rewrite Hauth. simpl.
      split; [by intros ?%elem_of_nil | by intros [[=] _]]. }
  destruct (isAuthenticated svc (tick_now_auth env)) eqn:Hsvc.
  2:{ unfold checkAndEnforceQuotas. rewrite Hauth, Hsvc. simpl.
      split; [by intros ?%elem_of_nil | by intros (_ & [=] & _)]. }
  rewrite (checkAndEnforceQuotas_running Object_entries env st svc Hauth Hsvc).
  cbn [fst snd]. rewrite elem_of_app, list_elem_of_singleton.
  rewrite enforceEntries_notification.
  split.
  - intros [(l1 & ms & a & l2 & Hsplit & Hin)|[=]].
    apply enforceChild_notification in Hin as (m & Hok & Hn).
    split; [done|]. split; [done|]. by exists l1, ms, a, l2, m.
  - intros (_ & _ & l1 & ms & a & l2 & m & Hsplit & Hok & Hn).
    left. exists l1, ms, a, l2. split; [done|].
    apply enforceChild_notification. by exists m.
Qed.

End NotificationsOfTick.

(** C6 as worded, refuted: 45 minutes were pushed; a first tick finds the
    quota used up, pushes 0 and announces the exhaustion; ten minutes later
    the quota is still 0, the stored value is 0 (no transition from a
    positive value), the push is due again, succeeds, and the exhaustion is
    announced a second time. *)
Lemma exhausted_notice_repeats :
  let r1 := checkAndEnforceQuotas Scenarios.created_12
              (Scenarios.tick_zero_at 1060000)
              (Scenarios.st_45, Scenarios.svc_cached) in
  let r2 := checkAndEnforceQuotas Scenarios.created_12
              (Scenarios.tick_zero_at 1660000) (fst r1) in
  filter (fun e => is_notification e = true) (snd r1)
    = [EvNotification (ScreenTimeExhausted "ms-1")]
  /\ quotaState (fst (fst r1)) !! "kid-1" = Some (pushedEntry 1060000 0)
  /\ snd r2
     = [EvGetQuota "kid-1";
        EvFetch "/setScreenTimeLimit" "ms-1" (Some 0);
        EvConfigurationUpdate;
        EvNotification (ScreenTimeExhausted "ms-1");
        EvConfigurationUpdate].
Proof. repeat split. Qed.

(** ** Manual sync *)

Section NothingDue.

Implicit Types (st : PluginState) (svc : MicrosoftFamilyService.t)
  (p : PluginState * MicrosoftFamilyService.t)
  (ms a : string) (l : list (string * string)).

(** An iteration for which nothing is due changes nothing and makes no
    remote call. *)
Lemma enforceChild_not_due (env : child_env) ms a p :
  due env a (fst p) = false ->
  fst (enforceChild env ms a p) = p
  /\ Forall (fun e => is_remote_call e = false) (snd (enforceChild env ms a p)).
Proof.
  destruct p as [st svc]. unfold due, enforceChild. simpl fst.
  destruct (env_quota env) as [| |allowed secs].
  - intros _. split; [done|]. by repeat constructor.
  - intros _. split; [done|]. by repeat constructor.
  - intros ->. split; [done|]. by repeat constructor.
Qed.

Lemma enforceEntries_not_due envs l p :
  (forall ms a, (ms, a) ∈ l -> due (envs ms) a (fst p) = false) ->
  fst (enforceEntries envs l p) = p
  /\ Forall (fun e => is_remote_call e = false) (snd (enforceEntries envs l p)).
Proof.
  induction l as [|[ms a] l IH]; intros Hnot.
  - split; [done|]. constructor.
  - rewrite enforceEntries_cons. cbn [fst snd].
    destruct (enforceChild_not_due (envs ms) ms a p) as [Hsame Hquiet].
    { apply Hnot. by left. }
    rewrite Hsame.
    destruct IH as [Hsame' Hquiet'].
    { intros ms' a' Hin. apply Hnot. by right. }
    split; [done|]. by apply Forall_app.
Qed.

(** An iteration reaches the network only for a push it found due, and
    then with the minutes it computed. *)
Lemma enforceChild_remote_due (env : child_env) ms a p e :
  e ∈ snd (enforceChild env ms a p) ->
  is_remote_call e = true ->
  due env a (fst p) = true
  /\ e = EvFetch "/setScreenTimeLimit" ms (Some (push_minutes env)).
Proof.
  destruct p as [st svc]. unfold enforceChild, due, push_minutes.
  cbn [fst snd].
  destruct (env_quota env) as [| |allowed secs].
  - intros Hin Hr. repeat (apply elem_of_cons in Hin as [-> | Hin]);
      first [done | by apply elem_of_nil in Hin].
  - intros Hin Hr. repeat (apply elem_of_cons in Hin as [-> | Hin]);
      first [done | by apply elem_of_nil in Hin].
  - destruct (determineSyncStrategy _ _ _ _).
    2:{ intros Hin Hr. repeat (apply elem_of_cons in Hin as [-> | Hin]);
          first [done | by apply elem_of_nil in Hin]. }
    destruct (setScreenTimeLimit _ _ _ _) as [[[r|msg] svc'] evs] eqn:Hpush;
      pose proof (setScreenTimeLimit_events _ _ _ _ _ _ _ Hpush) as Hevs;
      cbn [fst snd]; intros Hin Hr; split; try done.
    + apply elem_of_cons in Hin as [-> | Hin]; [done|].
      apply elem_of_app in Hin as [Hin|Hin].
      * destruct Hevs as [-> | ->]; [by apply elem_of_nil in Hin|].
        by apply list_elem_of_singleton in Hin.
      * apply elem_of_cons in Hin as [-> | Hin]; [done|].
        apply quotaNotification_is_notice in Hin as [n ->]. done.
    + apply elem_of_cons in Hin as [-> | Hin]; [done|].
      apply elem_of_app in Hin as [Hin|Hin].
      * destruct Hevs as [-> | ->]; [by apply elem_of_nil in Hin|].
        by apply list_elem_of_singleton in Hin.
      * apply list_elem_of_singleton in Hin as ->. done.
Qed.

Lemma enforceEntries_remote_due envs l p e :
  e ∈ snd (enforceEntries envs l p) ->
  is_remote_call e = true ->
  exists l1 ms a l2,
    l = l1 ++ (ms, a) :: l2
    /\ due (envs ms) a (fst (fst (enforceEntries envs l1 p))) = true
    /\ e = EvFetch "/setScreenTimeLimit" ms (Some (push_minutes (envs ms))).
Proof.
  revert p. induction l as [|[ms a] l IH]; intros p.
  - simpl. by intros ?%elem_of_nil.
  - rewrite enforceEntries_cons. cbn [snd]. rewrite elem_of_app.
    intros [Hin|Hin] Hr.
    + destruct (enforceChild_remote_due _ _ _ _ _ Hin Hr) as [Hdue ->].
      by exists [], ms, a, l.
    + destruct (IH _ Hin Hr) as (l1 & ms' & a' & l2 & -> & Hdue & ->).
      exists ((ms, a) :: l1), ms', a', l2. split; [done|].
      by rewrite enforceEntries_cons.
Qed.

End NothingDue.

Section ManualSync.

Variable Object_entries : gmap string string -> list (string * string).

Implicit Types (env : tick_env) (c : Closure) (ms a : string).

Lemma checkAndEnforceQuotas_nothing_due env st svc :
  (forall ms a, (ms, a) ∈ Object_entries (childLinks st) ->
     due (tick_child env ms) a st = false) ->
  let r := checkAndEnforceQuotas Object_entries env (st, svc) in
  quotaState (fst (fst r)) = quotaState st
  /\ snd (fst r) = svc
  /\ Forall (fun e => is_remote_call e = false) (snd r).
Proof.
  intros Hnot r. subst r. unfold checkAndEnforceQuotas.
  destruct (negb (authenticated st)
            || negb (isAuthenticated svc (tick_now_auth env))).
  - simpl. repeat split. constructor.
  - destruct (enforceEntries_not_due (tick_child env)
                (Object_entries (childLinks st)) (st, svc) Hnot)
      as [Hsame Hquiet].
    destruct (enforceEntries _ _ _) as [[st' svc'] evs].
    simpl in *. injection Hsame as -> ->.
    repeat split. apply Forall_app. split; [done|]. by repeat constructor.
Qed.

Lemma checkAndEnforceQuotas_remote_due env st svc e :
  e ∈ snd (checkAndEnforceQuotas Object_entries env (st, svc)) ->
  is_remote_call e = true ->
  exists l1 ms a l2,
    Object_entries (childLinks st) = l1 ++ (ms, a) :: l2
    /\ due (tick_child env ms) a
         (fst (fst (enforceEntries (tick_child env) l1 (st, svc)))) = true
    /\ e = EvFetch "/setScreenTimeLimit" ms
             (Some (push_minutes (tick_child env ms))).
Proof.
  unfold checkAndEnforceQuotas.
  destruct (negb (authenticated st)
            || negb (isAuthenticated svc (tick_now_auth env)));
    [by intros ?%elem_of_nil|].
  pose proof (enforceEntries_remote_due (tick_child env)
                (Object_entries (childLinks st)) (st, svc) e) as Hdue.
  destruct (enforceEntries _ _ _) as [[st' svc'] evs]. cbn [snd] in *.
  intros [Hin|Hin]%elem_of_app Hr; [by apply Hdue|].
  apply list_elem_of_singleton in Hin as ->. done.
Qed.

(** C8: the [syncNow] handler and the timer callback both run
    [checkAndEnforceQuotas] on the plugin's state and client; from the
    same closure and the same environment they end in the same closure
    with the same trace, so the same pushes and the same state updates,
    whichever object the handler itself holds.  Every remote call of a
    manual sync is the push for a link that [determineSyncStrategy] found
    due when the loop reached it; a link for which nothing is due then is
    left alone, and when nothing is due for any link the manual sync
    changes no quota entry and makes no remote call.  The [syncTime] of the
    reply is the [lastSync] of the handler's own object: that of the
    resulting state while [newState] has not replaced the object, that of
    the replaced object afterwards. *)
Theorem syncNow_runs_the_tick bound env c :
  let manual := syncNow Object_entries bound env c in
  let timed := quotaMonitorTick Object_entries env c in
  let run := checkAndEnforceQuotas Object_entries env
               (state c, familyService c) in
  snd (fst manual) = fst timed
  /\ snd manual = snd timed
  /\ fst timed = with_engine c (fst run)
  /\ snd timed = snd run
  /\ syncTime (fst (fst manual))
     = match bound with
       | SameObject => lastSync (state (snd (fst manual)))
       | Replaced old => lastSync old
       end
  /\ (forall e, e ∈ snd manual -> is_remote_call e = true ->
        exists l1 ms a l2,
          Object_entries (childLinks (state c)) = l1 ++ (ms, a) :: l2
          /\ due (tick_child env ms) a
               (fst (fst (enforceEntries (tick_child env) l1
                            (state c, familyService c)))) = true
          /\ e = EvFetch "/setScreenTimeLimit" ms
                   (Some (push_minutes (tick_child env ms))))
  /\ (forall l1 ms a l2,
        Object_entries (childLinks (state c)) = l1 ++ (ms, a) :: l2 ->
        let p1 := fst (enforceEntries (tick_child env) l1
                         (state c, familyService c)) in
        due (tick_child env ms) a (fst p1) = false ->
        fst (enforceChild (tick_child env ms) ms a p1) = p1
        /\ Forall (fun e => is_remote_call e = false)
             (snd (enforceChild (tick_child env ms) ms a p1)))
  /\ ((forall ms a, (ms, a) ∈ Object_entries (childLinks (state c)) ->
         due (tick_child env ms) a (state c) = false) ->
      quotaState (state (snd (fst manual))) = quotaState (state c)
      /\ familyService (snd (fst manual)) = familyService c
      /\ Forall (fun e => is_remote_call e = false) (snd manual)).
Proof.
  intros manual timed run. subst manual timed run.
  unfold syncNow, quotaMonitorTick.
  pose proof (checkAndEnforceQuotas_nothing_due env (state c)
                (familyService c)) as Hquiet.
  pose proof (checkAndEnforceQuotas_remote_due env (state c)
                (familyService c)) as Hdue.
  cbn zeta in Hquiet.
  destruct (checkAndEnforceQuotas Object_entries env
              (state c, familyService c)) as [p evs] eqn:Hrun.
  cbn [fst snd syncTime state familyService with_engine] in *.
  do 4 (split; [reflexivity|]).
  split; [by destruct bound|].
  split; [exact Hdue|].
  split.
  - intros l1 ms a l2 _ Hnot. by apply enforceChild_not_due.
  - exact Hquiet.
Qed.

End ManualSync.

Lemma syncNow_runs_the_tick_witness :
  let manual := syncNow Scenarios.created_12 SameObject
                  (Scenarios.tick_45_at 1300000) Scenarios.closure_45 in
  snd (fst manual)
  = fst (quotaMonitorTick Scenarios.created_12 (Scenarios.tick_45_at 1300000)
           Scenarios.closure_45)
  /\ quotaState (state (snd (fst manual)))
     = quotaState (state Scenarios.closure_45)
  /\ Forall (fun e => is_remote_call e = false) (snd manual).
Proof.
  destruct (syncNow_runs_the_tick Scenarios.created_12 SameObject
              (Scenarios.tick_45_at 1300000) Scenarios.closure_45)
    as (Hsame & _ & _ & _ & _ & _ & _ & Hquiet).
  split; [exact Hsame|].
  destruct Hquiet as (Hq & _ & Hev).
  { intros ms a Hin. vm_compute in Hin.
    apply list_elem_of_singleton in Hin. injection Hin as -> ->.
    reflexivity. }
  split; assumption.
Defined.

(** A manual sync after [newState] has replaced the state object: the
    tick stamps the plugin's state, the reply still reports the [lastSync]
    of the object the handler was given. *)
Example syncNow_after_newState :
  let manual := syncNow Scenarios.created_12 (Replaced Scenarios.st_45)
                  (Scenarios.tick_45_at 1300000) Scenarios.closure_45 in
  lastSync (state (snd (fst manual))) = Some 1300000
  /\ syncTime (fst (fst manual)) = Some 1000000.
Proof. split; reflexivity. Qed.

(** A manual sync that has something to push: 45 minutes are stored and
    50 are left, so the increase rule fires and the push is made. *)
Example syncNow_pushes_when_due :
  snd (syncNow Scenarios.created_12 SameObject (Cases.tick_50_at 1001000)
         Scenarios.closure_45)
  = [EvGetQuota "kid-1";
     EvFetch "/setScreenTimeLimit" "ms-1" (Some 50);
     EvConfigurationUpdate;
     EvConfigurationUpdate].
Proof. reflexivity. Qed.

(** ** The link registry *)

Section Registry.

Implicit Types (st : PluginState) (ms a : string) (op : link_op).

Lemma unlinkChild_linked ms a st :
  childLinks st !! ms = Some a ->
  truthy_str a = true ->
  fst (unlinkChild ms st)
  = set_links_quota st (delete ms (childLinks st)) (delete a (quotaState st)).
Proof. intros Hl Ht. unfold unlinkChild. by rewrite Hl, Ht. Qed.

Lemma unlinkChild_not_linked ms st :
  childLinks st !! ms = None ->
  fst (unlinkChild ms st) = set_links_quota st (childLinks st) (quotaState st).
Proof.
  intros Hl. unfold unlinkChild. rewrite Hl. simpl.
  by rewrite delete_id.
Qed.

Lemma registry_wf_initial : registry_wf initialState.
Proof.
  split; [split|split].
  - intros ms a Hl. simpl in Hl. by rewrite lookup_empty in Hl.
  - intros a [q Hq]. simpl in Hq. by rewrite lookup_empty in Hq.
  - intros ms1 ms2 a Hl. simpl in Hl. by rewrite lookup_empty in Hl.
  - intros ms a Hl. simpl in Hl. by rewrite lookup_empty in Hl.
Qed.

Lemma linkChild_preserves_wf ms a st :
  registry_wf st ->
  link_guard st (Link ms a) = true ->
  registry_wf (fst (linkChild ms a st)).
Proof.
  intros ((Hhas & Hown) & Hinj & Htruthy) Hguard.
  simpl in Hguard. apply andb_true_iff in Hguard as [Hguard Hta].
  apply andb_true_iff in Hguard as [Hfree Hnew].
  apply bool_decide_eq_true in Hfree, Hnew.
  assert (Hnone : forall ms', childLinks st !! ms' <> Some a).
  { intros ms' Hl. by apply (Hnew ms' a Hl). }
  unfold registry_wf, registry_consistent. simpl.
  split; [split|split].
  - intros ms1 a1 Hl. apply lookup_insert_Some in Hl as [[<- <-]|[Hne Hl]].
    + rewrite lookup_insert_eq. by eexists.
    + destruct (decide (a = a1)) as [<-|Hna].
      * rewrite lookup_insert_eq. by eexists.
      * rewrite lookup_insert_ne by done. by apply (Hhas ms1).
  - intros a1 Hq. destruct (decide (a = a1)) as [<-|Hna].
    + exists ms. apply lookup_insert_eq.
    + rewrite lookup_insert_ne in Hq by done.
      destruct (Hown a1 Hq) as [ms1 Hl]. exists ms1.
      rewrite lookup_insert_ne; [done|]. intros <-. congruence.
  - intros ms1 ms2 a1 Hl1 Hl2.
    apply lookup_insert_Some in Hl1 as [[<- <-]|[Hne1 Hl1]];
      apply lookup_insert_Some in Hl2 as [[<- Heq]|[Hne2 Hl2]];
      try done.
    + by destruct (Hnone ms2).
    + subst a1. by destruct (Hnone ms1).
    + by apply (Hinj ms1 ms2 a1).
  - intros ms1 a1 Hl. apply lookup_insert_Some in Hl as [[<- <-]|[Hne Hl]].
    + done.
    + by apply (Htruthy ms1).
Qed.

Lemma unlinkChild_preserves_wf ms st :
  registry_wf st -> registry_wf (fst (unlinkChild ms st)).
Proof.
  intros ((Hhas & Hown) & Hinj & Htruthy).
  destruct (childLinks st !! ms) as [a|] eqn:Hl.
  - rewrite (unlinkChild_linked ms a st Hl (Htruthy ms a Hl)).
    unfold registry_wf, registry_consistent. simpl.
    split; [split|split].
    + intros ms1 a1 Hl1. apply lookup_delete_Some in Hl1 as [Hne Hl1].
      rewrite lookup_delete_ne; [by apply (Hhas ms1)|].
      intros <-. apply Hne. by apply (Hinj ms ms1 a).
    + intros a1 Hq.
      assert (Hna : a <> a1).
      { intros <-. rewrite lookup_delete_eq in Hq. by destruct Hq. }
      rewrite lookup_delete_ne in Hq by done.
      destruct (Hown a1 Hq) as [ms1 Hl1]. exists ms1.
      rewrite lookup_delete_ne; [done|]. intros <-. congruence.
    + intros ms1 ms2 a1 [_ Hl1]%lookup_delete_Some [_ Hl2]%lookup_delete_Some.
      by apply (Hinj ms1 ms2 a1).
    + intros ms1 a1 [_ Hl1]%lookup_delete_Some. by apply (Htruthy ms1).
  - rewrite (unlinkChild_not_linked ms st Hl).
    unfold registry_wf, registry_consistent. simpl. by repeat split.
Qed.

Lemma apply_ops_preserves_wf ops st :
  registry_wf st -> guarded ops st = true -> registry_wf (apply_ops ops st).
Proof.
  revert st. induction ops as [|op ops IH]; intros st Hwf Hg; [done|].
  simpl in Hg. apply andb_true_iff in Hg as [Hguard Hrest].
  unfold apply_ops. simpl. apply IH; [|done].
  destruct op as [ms a|ms]; simpl.
  - by apply linkChild_preserves_wf.
  - by apply unlinkChild_preserves_wf.
Qed.

(** C7, as the code has it: linking sets the mapping and writes a
    zero entry for its Allow2 child; unlinking a link with a non-empty
    target removes the mapping and that child's entry; and as long as
    every link request names a Microsoft child that is not linked and a
    non-empty Allow2 child that is not linked yet, every state reached
    from the initial one has an entry for every link and a link for every
    entry. *)
Theorem registry_consistent_when_guarded ops :
  guarded ops initialState = true ->
  registry_consistent (apply_ops ops initialState)
  /\ (forall ms a st,
        childLinks (apply_op (Link ms a) st) !! ms = Some a
        /\ quotaState (apply_op (Link ms a) st) !! a = Some zeroEntry)
  /\ (forall ms a st,
        childLinks st !! ms = Some a ->
        truthy_str a = true ->
        childLinks (apply_op (Unlink ms) st) !! ms = None
        /\ quotaState (apply_op (Unlink ms) st) !! a = None).
Proof.
  intros Hg. split; [|split].
  - by apply (apply_ops_preserves_wf ops initialState registry_wf_initial).
  - intros ms a st. split; [apply linkChild_childLinks|apply linkChild_quotaState].
  - intros ms a st Hl Ht. unfold apply_op.
    rewrite (unlinkChild_linked ms a st Hl Ht).
    simpl. split; apply lookup_delete_eq.
Qed.

Lemma registry_consistent_when_guarded_witness :
  registry_consistent
    (apply_ops [Link "ms-1" "kid-1"; Link "ms-2" "kid-2"; Unlink "ms-1"]
       initialState).
Proof.
  refine (proj1 (registry_consistent_when_guarded
                   [Link "ms-1" "kid-1"; Link "ms-2" "kid-2"; Unlink "ms-1"]
                   _)).
  vm_compute. reflexivity.
Defined.

(** C7 as worded, refuted: two Microsoft accounts are linked to the
    same Allow2 child and one of them is unlinked; the other link is
    still there, its quota entry is gone. *)
Lemma unlink_strands_shared_link :
  let st := apply_ops [Link "ms-1" "kid-1"; Link "ms-2" "kid-1"; Unlink "ms-1"]
              initialState in
  childLinks st !! "ms-2" = Some "kid-1"
  /\ quotaState st !! "kid-1" = None
  /\ ~ registry_consistent st.
Proof.
  split; [reflexivity|]. split; [reflexivity|].
  intros [Hhas _].
  destruct (Hhas "ms-2" "kid-1" eq_refl) as [q Hq].
  vm_compute in Hq. discriminate.
Qed.

(** Linking a linked Microsoft child again leaves the entry of the
    former target behind. *)
Example relink_leaves_entry_behind :
  let st := apply_ops [Link "ms-1" "kid-1"; Link "ms-1" "kid-2"] initialState in
  map_to_list (childLinks st) = [("ms-1", "kid-2")]
  /\ quotaState st !! "kid-1" = Some zeroEntry.
Proof. split; reflexivity. Qed.

End Registry.

(** ** What the engine and the handlers keep *)

Section Kept.

Variable Object_entries : gmap string string -> list (string * string).

Implicit Types (st : PluginState) (svc : MicrosoftFamilyService.t)
  (p : PluginState * MicrosoftFamilyService.t)
  (ms a : string) (l : list (string * string)).

Lemma entries_coherent_initial : entries_coherent initialState.
Proof. apply map_Forall_empty. Qed.

Lemma linkChild_coherent ms a st :
  entries_coherent st -> entries_coherent (fst (linkChild ms a st)).
Proof. intros Hc. unfold entries_coherent. simpl. by apply map_Forall_insert_2. Qed.

Lemma unlinkChild_coherent ms st :
  entries_coherent st -> entries_coherent (fst (unlinkChild ms st)).
Proof.
  intros Hc. unfold entries_coherent, unlinkChild. simpl.
  destruct (childLinks st !! ms) as [a|]; [|done].
  destruct (truthy_str a); [|done]. by apply map_Forall_delete.
Qed.

Lemma enforceChild_coherent (env : child_env) ms a p :
  entries_coherent (fst p) ->
  entries_coherent (fst (fst (enforceChild env ms a p))).
Proof.
  destruct p as [st svc]. intros Hc. unfold enforceChild.
  destruct (env_quota env) as [| |allowed secs]; try done.
  destruct (determineSyncStrategy _ _ _ _); [|done].
  destruct (setScreenTimeLimit _ _ _ _) as [[[r|msg] svc'] evs]; [|done].
  unfold entries_coherent. simpl. by apply map_Forall_insert_2.
Qed.

Lemma enforceEntries_coherent envs l p :
  entries_coherent (fst p) ->
  entries_coherent (fst (fst (enforceEntries envs l p))).
Proof.
  revert p. induction l as [|[ms a] l IH]; intros p Hc; [done|].
  rewrite enforceEntries_cons. cbn [fst]. apply IH.
  by apply enforceChild_coherent.
Qed.

(** A tick keeps the two minute fields of every entry equal. *)
Lemma checkAndEnforceQuotas_coherent (env : tick_env) st svc :
  entries_coherent st ->
  entries_coherent
    (fst (fst (checkAndEnforceQuotas Object_entries env (st, svc)))).
Proof.
  intros Hc. unfold checkAndEnforceQuotas.
  destruct (negb (authenticated st)
            || negb (isAuthenticated svc (tick_now_auth env))); [done|].
  pose proof (enforceEntries_coherent (tick_child env)
                (Object_entries (childLinks st)) (st, svc) Hc) as Hc'.
  by destruct (enforceEntries _ _ _) as [[st' svc'] evs].
Qed.

Lemma enforceChild_wf (env : child_env) ms a p :
  childLinks (fst p) !! ms = Some a ->
  registry_wf (fst p) ->
  registry_wf (fst (fst (enforceChild env ms a p))).
Proof.
  destruct p as [st svc]. cbn [fst]. intros Hlink Hwf. unfold enforceChild.
  destruct (env_quota env) as [| |allowed secs]; try done.
  destruct (determineSyncStrategy _ _ _ _); [|done].
  destruct (setScreenTimeLimit _ _ _ _) as [[[r|msg] svc'] evs]; [|done].
  destruct Hwf as ((Hhas & Hown) & Hinj & Htruthy).
  unfold registry_wf, registry_consistent. cbn.
  split; [split|by split].
  - intros ms1 a1 Hl. destruct (decide (a = a1)) as [<-|Hne].
    + rewrite lookup_insert_eq. by eexists.
    + rewrite lookup_insert_ne by done. by apply (Hhas ms1).
  - intros a1 Hq. destruct (decide (a = a1)) as [<-|Hne].
    + by exists ms.
    + rewrite lookup_insert_ne in Hq by done. by apply Hown.
Qed.

Lemma enforceEntries_wf envs l p :
  (forall ms a, (ms, a) ∈ l -> childLinks (fst p) !! ms = Some a) ->
  registry_wf (fst p) ->
  registry_wf (fst (fst (enforceEntries envs l p))).
Proof.
  revert p. induction l as [|[ms a] l IH]; intros p Hlinks Hwf; [done|].
  rewrite enforceEntries_cons. cbn [fst]. apply IH.
  - intros ms' a' Hin.
    destruct (enforceChild_frame (envs ms) ms a p) as (_ & -> & _).
    apply Hlinks. by right.
  - apply enforceChild_wf; [|done]. apply Hlinks. by left.
Qed.

(** A tick keeps the registry well formed: it writes entries of linked
    children only. *)
Lemma checkAndEnforceQuotas_wf (env : tick_env) st svc :
  Object_entries (childLinks st) ≡ₚ map_to_list (childLinks st) ->
  registry_wf st ->
  registry_wf (fst (fst (checkAndEnforceQuotas Object_entries env (st, svc)))).
Proof.
  intros Hperm Hwf. unfold checkAndEnforceQuotas.
  destruct (negb (authenticated st)
            || negb (isAuthenticated svc (tick_now_auth env))); [done|].
  pose proof (enforceEntries_wf (tick_child env)
                (Object_entries (childLinks st)) (st, svc)) as Hkept.
  destruct (enforceEntries _ _ _) as [[st' svc'] evs]. cbn [fst] in *.
  apply Hkept; [|done].
  intros ms a Hin. by apply (entries_linked Object_entries st ms a Hperm).
Qed.

End Kept.

(** * Further properties of the client *)

Section ClientMore.

Implicit Types (svc : MicrosoftFamilyService.t) (child : string).

(** X1: a client that is authenticated at some time was authenticated at
    every earlier time; put the other way, once [isAuthenticated] has
    answered [false] it answers [false] at every later time, as long as the
    token fields are not rewritten. *)
Theorem authenticated_earlier svc now now' :
  isAuthenticated svc now' = true ->
  now <= now' ->
  isAuthenticated svc now = true.
Proof.
  unfold isAuthenticated.
  destruct (accessToken svc) as [tok|]; [|done].
  destruct (tokenExpiry svc) as [expiry|]; [|done].
  destruct (truthy_str tok); [|done].
  destruct (truthy_num expiry); [|done]. simpl.
  intros Hlater Hle. apply Z.ltb_lt in Hlater. apply Z.ltb_lt. lia.
Qed.

Lemma authenticated_earlier_witness :
  isAuthenticated Scenarios.svc_cached 1000000 = true.
Proof.
  apply (authenticated_earlier Scenarios.svc_cached 1000000 4599999).
  - reflexivity.
  - lia.
Defined.

Lemma getScreenTime_events svc child force env o svc' evs :
  getScreenTime svc child force env = (o, svc', evs) ->
  evs = [] \/ evs = [EvFetch "/getScreenTimeSettings" child None].
Proof.
  unfold getScreenTime.
  destruct (isAuthenticated svc (fetch_now_check env)); simpl;
    [|intros [= _ _ <-]; by left].
  destruct (cache_hit svc child force (fetch_now_cache env));
    [intros [= _ _ <-]; by left|].
  destruct (apiRequest _ _ _ _ _ _) as [[?|?] evs0] eqn:Hreq;
    intros [= _ _ <-]; by apply apiRequest_events in Hreq.
Qed.

(** X2: neither [setScreenTimeLimit] nor [getScreenTime] reaches the
    network unless the token is valid both when the method checks it and
    when [apiRequest] checks it again; and a call that finds the token
    invalid at its own check throws without touching the client. *)
Theorem remote_calls_need_a_valid_token svc child minutes penv force fenv :
  (snd (setScreenTimeLimit svc child minutes penv) <> [] ->
   isAuthenticated svc (push_now_check penv) = true
   /\ isAuthenticated svc (push_now_request penv) = true)
  /\ (snd (getScreenTime svc child force fenv) <> [] ->
      isAuthenticated svc (fetch_now_check fenv) = true
      /\ isAuthenticated svc (fetch_now_request fenv) = true)
  /\ (isAuthenticated svc (push_now_check penv) = false ->
      exists msg, setScreenTimeLimit svc child minutes penv = (Thrown msg, svc, []))
  /\ (isAuthenticated svc (fetch_now_check fenv) = false ->
      exists msg, getScreenTime svc child force fenv = (Thrown msg, svc, [])).
Proof.
  unfold setScreenTimeLimit, getScreenTime, apiRequest.
  destruct (isAuthenticated svc (push_now_check penv)),
    (isAuthenticated svc (push_now_request penv)),
    (isAuthenticated svc (fetch_now_check fenv)),
    (isAuthenticated svc (fetch_now_request fenv)); simpl;
    repeat split; try done; try (intros _; by eexists);
    destruct (cache_hit svc child force (fetch_now_cache fenv)); simpl; done.
Qed.

(** X3: a snapshot fetched from the network is served from the cache to
    a later unforced read of the same child, without a remote call and
    without changing the client, as long as the token is still valid and
    less than [cacheDuration] has passed since the snapshot was stamped. *)
Theorem fetched_snapshot_is_served_from_cache
    svc child force env1 snapshot svc1 evs1 env2 :
  cache_hit svc child force (fetch_now_cache env1) = None ->
  getScreenTime svc child force env1 = (Returned snapshot, svc1, evs1) ->
  isAuthenticated svc (fetch_now_check env2) = true ->
  fetch_now_cache env2 - fetch_now_stamp env1 < cacheDuration svc ->
  getScreenTime svc1 child false env2 = (Returned snapshot, svc1, []).
Proof.
  intros Hmiss Hget Hauth Hfresh. unfold getScreenTime in Hget.
  rewrite Hmiss in Hget.
  destruct (isAuthenticated svc (fetch_now_check env1)); simpl in Hget;
    [|discriminate].
  destruct (apiRequest _ _ _ _ _ _) as [[response|msg] evs0];
    [|discriminate].
  injection Hget as <- <- <-.
  unfold getScreenTime, cache_hit. rewrite isAuthenticated_set_cache, Hauth.
  simpl. rewrite lookup_insert_eq. simpl.
  by apply Z.ltb_lt in Hfresh as ->.
Qed.

Lemma fetched_snapshot_is_served_from_cache_witness :
  exists snapshot svc1,
    dailyLimit snapshot = 60
    /\ getScreenTime svc1 "ms-1" false Scenarios.fetch_after
       = (Returned snapshot, svc1, []).
Proof.
  eexists _, _. split; [|
    apply (fetched_snapshot_is_served_from_cache Scenarios.svc_cached "ms-1"
             true Scenarios.fetch_after _ _ _ Scenarios.fetch_after
             eq_refl eq_refl eq_refl);
    simpl; lia].
  reflexivity.
Defined.

(** X4: the time to live is exclusive: a cached snapshot whose age has
    reached [cacheDuration] is not served; the read behaves exactly as a
    forced refresh. *)
Theorem stale_snapshot_is_refetched svc child entry env :
  cache_screenTime svc !! child = Some entry ->
  fetch_now_cache env - timestamp entry >= cacheDuration svc ->
  getScreenTime svc child false env = getScreenTime svc child true env.
Proof.
  intros Hentry Hstale. unfold getScreenTime.
  rewrite cache_hit_forced. unfold cache_hit. rewrite Hentry. simpl.
  destruct (Z.ltb_spec (fetch_now_cache env - timestamp entry)
              (cacheDuration svc)); [lia|done].
Qed.

Lemma stale_snapshot_is_refetched_witness :
  let env := {| fetch_now_check := 1298000;
                fetch_now_cache := 1298000;
                fetch_now_request := 1298000;
                fetch_reply := fetch_reply Scenarios.fetch_after;
                fetch_now_updated := 1298000;
                fetch_now_stamp := 1298000 |} in
  snd (getScreenTime Scenarios.svc_cached "ms-1" false env)
  = [EvFetch "/getScreenTimeSettings" "ms-1" None].
Proof.
  intros env.
  rewrite (stale_snapshot_is_refetched Scenarios.svc_cached "ms-1"
             {| data := Scenarios.snapshot_120; timestamp := 998000 |} env).
  - reflexivity.
  - reflexivity.
  - simpl. lia.
Defined.

(** X5: [getScreenTime] for one child never changes what is cached for
    another child, nor the token, the family id or the cache duration; and
    when it throws the client is exactly as before. *)
Theorem getScreenTime_touches_one_entry svc child force env :
  let r := getScreenTime svc child force env in
  (forall other, other <> child ->
     cache_screenTime (snd (fst r)) !! other = cache_screenTime svc !! other)
  /\ accessToken (snd (fst r)) = accessToken svc
  /\ tokenExpiry (snd (fst r)) = tokenExpiry svc
  /\ familyId (snd (fst r)) = familyId svc
  /\ cacheDuration (snd (fst r)) = cacheDuration svc
  /\ (forall msg, fst (fst r) = Thrown msg -> snd (fst r) = svc).
Proof.
  unfold getScreenTime.
  destruct (isAuthenticated svc (fetch_now_check env)); simpl;
    [|by repeat split].
  destruct (cache_hit svc child force (fetch_now_cache env));
    [by repeat split|].
  destruct (apiRequest _ _ _ _ _ _) as [[response|msg] evs0]; simpl;
    [|by repeat split].
  repeat split; try done.
  intros other Hne. by apply lookup_insert_ne.
Qed.

End ClientMore.

Section SnapshotInvariant.

Import Snapshots.

Implicit Types (svc : MicrosoftFamilyService.t) (child : string).

Lemma mkScreenTime_ok child response now :
  snapshot_ok child (mkScreenTime child response now).
Proof. by split. Qed.

(** X6: if every cached snapshot is filed under its own child and has
    [remaining = max 0 (dailyLimit - currentUsage)], this is still so after
    [setScreenTimeLimit] and after [getScreenTime], and every snapshot that
    [getScreenTime] returns for a child is about that child, with a
    [remaining] that is never negative. *)
Theorem cached_snapshots_stay_sound svc child minutes penv force fenv :
  cache_ok svc ->
  cache_ok (snd (fst (setScreenTimeLimit svc child minutes penv)))
  /\ cache_ok (snd (fst (getScreenTime svc child force fenv)))
  /\ forall snapshot,
       fst (fst (getScreenTime svc child force fenv)) = Returned snapshot ->
       snapshot_ok child snapshot /\ 0 <= remaining snapshot.
Proof.
  intros Hok. split; [|split].
  - destruct (setScreenTimeLimit svc child minutes penv)
      as [[[r|msg] svc'] evs] eqn:Hpush; simpl.
    + apply setScreenTimeLimit_returned in Hpush as (-> & _ & _).
      unfold cache_ok. simpl. by apply map_Forall_delete.
    + by apply setScreenTimeLimit_thrown in Hpush as ->.
  - unfold getScreenTime.
    destruct (isAuthenticated svc (fetch_now_check fenv)); simpl; [|done].
    destruct (cache_hit svc child force (fetch_now_cache fenv)); [done|].
    destruct (apiRequest _ _ _ _ _ _) as [[response|msg] evs0]; simpl; [|done].
    unfold cache_ok. simpl. apply map_Forall_insert_2; [|done].
    apply mkScreenTime_ok.
  - intros snapshot.
    assert (Hneg : forall s, snapshot_ok child s -> 0 <= remaining s).
    { intros s [_ ->]. lia. }
    unfold getScreenTime.
    destruct (isAuthenticated svc (fetch_now_check fenv)); simpl; [|done].
    destruct (cache_hit svc child force (fetch_now_cache fenv))
      as [cached|] eqn:Hhit.
    + simpl. intros [= <-].
      unfold cache_hit in Hhit.
      destruct (cache_screenTime svc !! child) as [entry|] eqn:Hentry;
        [|done].
      destruct (negb force && _); [|done]. injection Hhit as <-.
      pose proof (Hok child entry Hentry) as Hs. simpl in Hs.
      split; [done|]. by apply Hneg.
    + destruct (apiRequest _ _ _ _ _ _) as [[response|msg] evs0]; simpl;
        [|done].
      intros [= <-]. split; [apply mkScreenTime_ok|].
      apply Hneg, mkScreenTime_ok.
Qed.

Lemma svc_cached_ok : cache_ok Scenarios.svc_cached.
Proof.
  unfold cache_ok. simpl. apply map_Forall_singleton. by split.
Defined.

Lemma cached_snapshots_stay_sound_witness :
  cache_ok (snd (fst (getScreenTime Scenarios.svc_cached "ms-1" true
                        Scenarios.fetch_after)))
  /\ cache_ok (snd (fst (setScreenTimeLimit Scenarios.svc_cached "ms-1" 60
                           Scenarios.push_ok))).
Proof.
  destruct (cached_snapshots_stay_sound Scenarios.svc_cached "ms-1" 60
              Scenarios.push_ok true Scenarios.fetch_after svc_cached_ok)
    as (Hset & Hget & _).
  by split.
Defined.

End SnapshotInvariant.

(** * The roster *)

Section RosterProperties.

Import Roster.

Implicit Types (c : client) (env : roster_env).

Lemma childrenOf_children info :
  Forall (fun m => member_isChild m = true) (childrenOf info).
Proof.
  unfold childrenOf. apply Forall_forall. intros m Hin.
  apply list_elem_of_In, filter_In in Hin. tauto.
Qed.

(** What a call that got past the guard and missed the cache does. *)
Lemma getFamilyMembers_miss c force env :
  isAuthenticated (service c) (roster_now_check env) = true ->
  roster_hit c force (roster_now_cache env) = None ->
  getFamilyMembers c force env
  = match apiRequest (service c) (roster_now_request env)
            "/getFamilyInfo" EmptyString None (roster_reply env) with
    | (Returned response, evs) =>
        match validFamilyId response, response with
        | Some fid, Some info =>
            (Returned (childrenOf info),
             {| service := set_familyId (service c) fid;
                familyMembers :=
                  Some (childrenOf info, roster_now_stamp env) |},
             evs)
        | _, _ => (Thrown "Invalid family info response", c, evs)
        end
    | (Thrown msg, evs) => (Thrown msg, c, evs)
    end.
Proof. intros Hauth Hmiss. unfold getFamilyMembers. by rewrite Hauth, Hmiss. Qed.

(** X7: whatever the remote end lists, [getFamilyMembers] hands out
    managed children only, from the network as well as from a cache that
    holds children only, and the cache it leaves holds children only. *)
Theorem roster_lists_children_only c force env members c' evs :
  roster_cache_ok c ->
  getFamilyMembers c force env = (Returned members, c', evs) ->
  Forall (fun m => member_isChild m = true) members
  /\ roster_cache_ok c'.
Proof.
  intros Hok. unfold getFamilyMembers.
  destruct (isAuthenticated (service c) (roster_now_check env)); simpl;
    [|discriminate].
  destruct (roster_hit c force (roster_now_cache env)) as [cached|] eqn:Hhit.
  - intros [= <- <- _]. split; [|done].
    unfold roster_hit in Hhit. unfold roster_cache_ok in Hok.
    destruct (familyMembers c) as [[l stamp]|]; [|done].
    destruct (negb force && _); [|done]. by injection Hhit as <-.
  - destruct (apiRequest _ _ _ _ _ _) as [[response|msg] evs0];
      [|discriminate].
    destruct (validFamilyId response) as [fid|]; [|discriminate].
    destruct response as [info|]; [|discriminate].
    intros [= <- <- _]. split; [apply childrenOf_children|].
    unfold roster_cache_ok. simpl. apply childrenOf_children.
Qed.

End RosterProperties.

Section RosterCache.

Import Roster.

Implicit Types (c : client) (env : roster_env).

Lemma roster_lists_children_only_witness :
  exists members c' evs,
    getFamilyMembers Cases.client_fresh false (Cases.roster_at 1000000)
    = (Returned members, c', evs)
    /\ List.map member_name members = ["Alice"]
    /\ Forall (fun m => member_isChild m = true) members.
Proof.
  eexists _, _, _. split; [reflexivity|]. split; [reflexivity|].
  refine (proj1 (roster_lists_children_only Cases.client_fresh false
                   (Cases.roster_at 1000000) _ _ _ _ eq_refl)).
  exact I.
Defined.

(** X8: a roster fetched from the network, an empty one included, is
    served from the cache to a later unforced call, without a remote call
    and without changing the client, as long as the token is still valid
    and less than [cacheDuration] has passed since the roster was stamped. *)
Theorem fetched_roster_is_served_from_cache
    c force env1 members c1 evs1 env2 :
  roster_hit c force (roster_now_cache env1) = None ->
  getFamilyMembers c force env1 = (Returned members, c1, evs1) ->
  isAuthenticated (service c) (roster_now_check env2) = true ->
  roster_now_cache env2 - roster_now_stamp env1 < cacheDuration (service c) ->
  getFamilyMembers c1 false env2 = (Returned members, c1, []).
Proof.
  intros Hmiss Hget Hauth Hfresh. unfold getFamilyMembers in Hget.
  rewrite Hmiss in Hget.
  destruct (isAuthenticated (service c) (roster_now_check env1));
    simpl in Hget; [|discriminate].
  destruct (apiRequest _ _ _ _ _ _) as [[response|msg] evs0];
    [|discriminate].
  destruct (validFamilyId response) as [fid|]; [|discriminate].
  destruct response as [info|]; [|discriminate].
  injection Hget as <- <- <-.
  unfold getFamilyMembers, roster_hit. simpl.
  change (isAuthenticated (set_familyId (service c) fid) (roster_now_check env2))
    with (isAuthenticated (service c) (roster_now_check env2)).
  rewrite Hauth. simpl. by apply Z.ltb_lt in Hfresh as ->.
Qed.

Lemma fetched_roster_is_served_from_cache_witness :
  exists members c1,
    List.map member_id members = ["ms-1"]
    /\ getFamilyMembers c1 false (Cases.roster_invalid_at 1200000)
       = (Returned members, c1, []).
Proof.
  eexists _, _. split; [|
    apply (fetched_roster_is_served_from_cache Cases.client_fresh false
             (Cases.roster_at 1000000) _ _ _ (Cases.roster_invalid_at 1200000)
             eq_refl eq_refl eq_refl);
    simpl; lia].
  reflexivity.
Defined.

Lemma roster_refresh_failure c force env msg :
  fst (fst (getFamilyMembers c force env)) = Thrown msg ->
  snd (fst (getFamilyMembers c force env)) = c.
Proof.
  unfold getFamilyMembers.
  destruct (isAuthenticated (service c) (roster_now_check env)); simpl;
    [|done].
  destruct (roster_hit c force (roster_now_cache env)); [done|].
  destruct (apiRequest _ _ _ _ _ _) as [[response|m] evs0]; [|done].
  destruct (validFamilyId response) as [fid|]; [|done].
  by destruct response.
Qed.

(** X9: [getFamilyMembers] replaces the roster wholesale or not at all:
    when it throws (no valid token, transport failure, an empty body, or a
    body without a family id) the cached roster, the family id and the
    rest of the client are exactly as before; when it returns, the cache
    holds exactly the list returned and the family id stored is not
    empty. *)
Theorem roster_refresh_is_all_or_nothing c force env :
  let r := getFamilyMembers c force env in
  (forall msg, fst (fst r) = Thrown msg -> snd (fst r) = c)
  /\ (forall members,
        fst (fst r) = Returned members ->
        (snd r = [] /\ snd (fst r) = c)
        \/ (fst <$> familyMembers (snd (fst r)) = Some members
            /\ exists fid,
                 familyId (service (snd (fst r))) = Some fid
                 /\ truthy_str fid = true)).
Proof.
  unfold getFamilyMembers.
  destruct (isAuthenticated (service c) (roster_now_check env)); simpl;
    [|by split].
  destruct (roster_hit c force (roster_now_cache env)) as [cached|];
    [split; [done|]; intros members _; by left|].
  destruct (apiRequest _ _ _ _ _ _) as [[response|msg] evs0]; [|by split].
  destruct (validFamilyId response) as [fid|] eqn:Hfid; [|by split].
  destruct response as [info|]; [|by split].
  split; [done|]. simpl. intros members [= <-]. right. split; [done|].
  exists fid. split; [done|].
  unfold validFamilyId in Hfid.
  destruct (info_familyId info) as [fid'|]; [|done].
  destruct (truthy_str fid') eqn:Ht; [|done]. by injection Hfid as <-.
Qed.

(** X10: after [clearCache] the next unforced [getFamilyMembers] and the
    next unforced [getScreenTime] of any child behave exactly as forced
    refreshes, while the token and the family id are kept. *)
Theorem clearCache_forces_refetch c child fenv renv :
  getFamilyMembers (clearCache c) false renv
  = getFamilyMembers (clearCache c) true renv
  /\ getScreenTime (service (clearCache c)) child false fenv
     = getScreenTime (service (clearCache c)) child true fenv
  /\ (forall now,
        isAuthenticated (service (clearCache c)) now
        = isAuthenticated (service c) now)
  /\ familyId (service (clearCache c)) = familyId (service c).
Proof.
  split; [reflexivity|]. split; [|by split].
  unfold getScreenTime. rewrite cache_hit_forced.
  by rewrite (cache_hit_missing _ child false _ (lookup_empty child)).
Qed.

End RosterCache.

(** * Further properties of the engine *)

Section StrategyMore.

Implicit Types (st : PluginState) (a : string).

Lemma determineSyncStrategy_later st a n now now' :
  determineSyncStrategy st a n now = true ->
  now <= now' ->
  determineSyncStrategy st a n now' = true.
Proof.
  intros Hdue Hle. revert Hdue. unfold determineSyncStrategy. cbn zeta.
  generalize (oldMinutes_of (quotaState st !! a) n).
  generalize (lastSync_of (quotaState st !! a)).
  intros ls old. zbool; intros; first [done | lia].
Qed.

(** X11: a push that is due stays due: if [determineSyncStrategy]
    answers [true] at some time, it answers [true] for the same state and
    the same minutes at every later time. *)
Theorem due_stays_due st a n now now' :
  determineSyncStrategy st a n now = true ->
  now <= now' ->
  determineSyncStrategy st a n now' = true.
Proof. apply determineSyncStrategy_later. Qed.

Lemma due_stays_due_witness :
  determineSyncStrategy Scenarios.st_45 "kid-1" 45 9000000 = true.
Proof.
  apply (due_stays_due Scenarios.st_45 "kid-1" 45 1600000 9000000).
  - reflexivity.
  - lia.
Defined.

Lemma remainingMinutes_of_nonneg allowed secs :
  0 <= remainingMinutes_of allowed secs.
Proof.
  unfold remainingMinutes_of. rewrite (Z.gtb_ltb secs 0).
  destruct allowed; simpl; [|lia].
  destruct (Z.ltb_spec 0 secs); [|lia].
  apply Z.div_pos; lia.
Qed.

(** X12: the minutes pushed are the whole minutes of the remaining
    seconds: never negative, 0 when the quota is not allowed or less than
    a minute remains, and otherwise the floor of [seconds / 60]. *)
Theorem remainingMinutes_of_floor allowed secs :
  0 <= remainingMinutes_of allowed secs
  /\ (remainingMinutes_of allowed secs = 0 <-> allowed = false \/ secs < 60)
  /\ (allowed = true -> 0 < secs ->
      60 * remainingMinutes_of allowed secs <= secs
      < 60 * remainingMinutes_of allowed secs + 60).
Proof.
  unfold remainingMinutes_of. rewrite (Z.gtb_ltb secs 0).
  destruct allowed; simpl; [|split; [lia|split; [tauto|done]]].
  destruct (Z.ltb_spec 0 secs) as [Hpos|Hnp].
  - pose proof (Z.div_mod secs 60 ltac:(lia)) as Hdm.
    pose proof (Z.mod_pos_bound secs 60 ltac:(lia)) as Hmod.
    split; [lia|]. split; [|lia].
    split.
    + intros Hz. right. lia.
    + intros [[=]|Hlt]. lia.
  - split; [lia|]. split; [|lia]. split; [right; lia|done].
Qed.

End StrategyMore.

Section LoopMore.

Implicit Types (st : PluginState) (svc : MicrosoftFamilyService.t)
  (p : PluginState * MicrosoftFamilyService.t)
  (ms a : string) (env : child_env) (envs : string -> child_env)
  (l : list (string * string)).

Lemma push_minutes_nonneg env : 0 <= push_minutes env.
Proof.
  unfold push_minutes. destruct (env_quota env) as [| |allowed secs]; try lia.
  apply remainingMinutes_of_nonneg.
Qed.

(** The trace of one iteration, case by case. *)
Lemma enforceChild_trace env ms a p :
  let evs := snd (enforceChild env ms a p) in
  let fetch := EvFetch "/setScreenTimeLimit" ms (Some (push_minutes env)) in
  evs = [EvGetQuota a]
  \/ evs = [EvGetQuota a; EvConsoleError ms]
  \/ evs = [EvGetQuota a; fetch; EvConsoleError ms]
  \/ evs = [EvGetQuota a; fetch; EvConfigurationUpdate]
           ++ quotaNotification ms (push_minutes env).
Proof.
  destruct p as [st svc]. unfold enforceChild, push_minutes.
  destruct (env_quota env) as [| |allowed secs]; simpl; auto.
  destruct (determineSyncStrategy _ _ _ _); simpl; auto.
  destruct (setScreenTimeLimit _ _ _ _) as [[[r|msg] svc'] evs] eqn:Hpush.
  - apply setScreenTimeLimit_returned in Hpush as (_ & -> & _). simpl. auto.
  - apply setScreenTimeLimit_events in Hpush as [-> | ->]; simpl; auto.
Qed.

Lemma quotaNotification_cases ms m :
  quotaNotification ms m = []
  \/ exists n, quotaNotification ms m = [EvNotification n].
Proof.
  unfold quotaNotification.
  destruct ((m <? 10) && (m >? 0)); [right; by eexists|].
  destruct (m =? 0); [right; by eexists|by left].
Qed.

End LoopMore.

Section TickMore.

Variable Object_entries : gmap string string -> list (string * string).

Implicit Types (st : PluginState) (svc : MicrosoftFamilyService.t)
  (p : PluginState * MicrosoftFamilyService.t)
  (ms a : string) (envs : string -> child_env)
  (l : list (string * string)).

Lemma enforceChild_counts (env : child_env) ms a p :
  let evs := snd (enforceChild env ms a p) in
  (length (List.filter is_notification evs)
   <= length (List.filter is_remote_call evs) <= 1)%nat
  /\ forall e, e ∈ evs -> is_remote_call e = true ->
       e = EvFetch "/setScreenTimeLimit" ms (Some (push_minutes env)).
Proof.
  cbn zeta.
  destruct (enforceChild_trace env ms a p) as [-> | [-> | [-> | ->]]];
    try (split; [simpl; lia|];
         intros e He Hr; repeat (apply elem_of_cons in He as [-> | He]);
         first [done | by apply elem_of_nil in He]).
  destruct (quotaNotification_cases ms (push_minutes env)) as [-> | [n ->]];
    (split; [simpl; lia|]);
    intros e He Hr; repeat (apply elem_of_cons in He as [-> | He]);
    first [done | by apply elem_of_nil in He].
Qed.

Lemma enforceEntries_counts envs l p :
  let evs := snd (enforceEntries envs l p) in
  (length (List.filter is_notification evs)
   <= length (List.filter is_remote_call evs) <= length l)%nat
  /\ forall e, e ∈ evs -> is_remote_call e = true ->
       exists ms a,
         (ms, a) ∈ l
         /\ e = EvFetch "/setScreenTimeLimit" ms (Some (push_minutes (envs ms))).
Proof.
  revert p. induction l as [|[ms a] l IH]; intros p.
  - simpl. split; [lia|]. by intros e ?%elem_of_nil.
  - rewrite enforceEntries_cons. cbn [snd]. cbn zeta.
    rewrite !List.filter_app, !length_app.
    destruct (enforceChild_counts (envs ms) ms a p) as [Hn He].
    destruct (IH (fst (enforceChild (envs ms) ms a p))) as [Hn' He'].
    cbn zeta in *. split; [simpl; lia|].
    intros e [Hin|Hin]%elem_of_app Hr.
    + exists ms, a. split; [by left|]. by apply He.
    + destruct (He' e Hin Hr) as (ms' & a' & Hin' & ->).
      exists ms', a'. split; [by right|done].
Qed.

(** The remote calls an iteration makes for [ms]: one at most, and none
    when the iteration is for another Microsoft child. *)
Lemma enforceChild_count_for (env : child_env) ms' a p ms :
  (length (List.filter (is_remote_call_for ms) (snd (enforceChild env ms' a p)))
   <= if String.eqb ms' ms then 1 else 0)%nat.
Proof.
  destruct (enforceChild_trace env ms' a p) as [-> | [-> | [-> | ->]]];
    try (simpl; destruct (String.eqb ms' ms); simpl; lia).
  destruct (quotaNotification_cases ms' (push_minutes env)) as [-> | [n ->]];
    simpl; destruct (String.eqb ms' ms); simpl; lia.
Qed.

Lemma enforceEntries_count_for envs l p ms :
  (length (List.filter (is_remote_call_for ms) (snd (enforceEntries envs l p)))
   <= length (List.filter (fun k => String.eqb k ms) l.*1))%nat.
Proof.
  revert p. induction l as [|[ms' a] l IH]; intros p; [simpl; lia|].
  rewrite enforceEntries_cons. cbn [snd].
  rewrite List.filter_app, length_app, fmap_cons. cbn [fst List.filter].
  pose proof (enforceChild_count_for (envs ms') ms' a p ms) as Hhead.
  pose proof (IH (fst (enforceChild (envs ms') ms' a p))) as Htail.
  destruct (String.eqb ms' ms); simpl; lia.
Qed.

Lemma key_occurs_once (ks : list string) ms :
  NoDup ks ->
  (length (List.filter (fun k => String.eqb k ms) ks) <= 1)%nat
  /\ (ms ∉ ks -> length (List.filter (fun k => String.eqb k ms) ks) = 0%nat).
Proof.
  induction ks as [|k ks IH]; intros Hnd; [simpl; split; [lia|done]|].
  apply NoDup_cons in Hnd as [Hk Hnd]. destruct (IH Hnd) as [Hle Hzero].
  cbn [List.filter]. destruct (String.eqb_spec k ms) as [->|Hne]; simpl.
  - split; [rewrite (Hzero Hk); lia|]. intros Hnot. exfalso. apply Hnot. by left.
  - split; [done|]. intros Hnot. apply Hzero. intros Hin. apply Hnot. by right.
Qed.

(** X13: a tick makes at most one remote call per link: for every
    Microsoft child at most one remote call of the tick is made for it,
    and none when it is not linked; so the remote calls of a tick are no
    more than the links.  Every remote call it makes is a
    [/setScreenTimeLimit] for a linked Microsoft child, and the minutes it
    sends are never negative. *)
Theorem tick_remote_calls_bounded (env : tick_env) st svc :
  Object_entries (childLinks st) ≡ₚ map_to_list (childLinks st) ->
  let evs := snd (checkAndEnforceQuotas Object_entries env (st, svc)) in
  (forall ms,
     (length (List.filter (is_remote_call_for ms) evs) <= 1)%nat
     /\ (childLinks st !! ms = None ->
         length (List.filter (is_remote_call_for ms) evs) = 0%nat))
  /\ (length (List.filter is_remote_call evs) <= size (childLinks st))%nat
  /\ forall e, e ∈ evs -> is_remote_call e = true ->
       exists ms a m,
         childLinks st !! ms = Some a
         /\ 0 <= m
         /\ is_remote_call_for ms e = true
         /\ e = EvFetch "/setScreenTimeLimit" ms (Some m).
Proof.
  intros Hperm. cbn zeta. unfold checkAndEnforceQuotas.
  destruct (negb (authenticated st)
            || negb (isAuthenticated svc (tick_now_auth env))).
  { simpl. split; [split; [lia|done]|]. split; [lia|].
    by intros e ?%elem_of_nil. }
  destruct (enforceEntries_counts (tick_child env)
              (Object_entries (childLinks st)) (st, svc)) as [Hn He].
  pose proof (enforceEntries_count_for (tick_child env)
                (Object_entries (childLinks st)) (st, svc)) as Hfor.
  destruct (enforceEntries _ _ _) as [[st' svc'] evs]. cbn [snd] in *.
  cbn zeta in *.
  split; [|split].
  - intros ms. rewrite List.filter_app, length_app. simpl.
    destruct (key_occurs_once (Object_entries (childLinks st)).*1 ms
                (entries_NoDup Object_entries st Hperm)) as [Hle Hzero].
    specialize (Hfor ms). split; [lia|].
    intros Hnone. rewrite Hzero in Hfor; [lia|].
    intros ([ms' a] & Heq & Hin)%list_elem_of_fmap. simpl in Heq. subst ms'.
    apply (entries_linked Object_entries st ms a Hperm) in Hin. congruence.
  - rewrite List.filter_app, length_app. simpl.
    rewrite <- length_map_to_list, <- Hperm. lia.
  - intros e [Hin|Hin]%elem_of_app Hr.
    + destruct (He e Hin Hr) as (ms & a & Hin' & ->).
      exists ms, a, (push_minutes (tick_child env ms)).
      split; [by apply (entries_linked Object_entries st ms a Hperm)|].
      split; [apply push_minutes_nonneg|].
      split; [simpl; apply String.eqb_refl|done].
    + apply list_elem_of_singleton in Hin as ->. done.
Qed.


Lemma enforceChild_entry (env : child_env) ms a p a' :
  let r := enforceChild env ms a p in
  quotaState (fst (fst r)) !! a' = quotaState (fst p) !! a'
  \/ (a' = a
      /\ EvFetch "/setScreenTimeLimit" ms (Some (push_minutes env)) ∈ snd r
      /\ quotaState (fst (fst r)) !! a'
         = Some (pushedEntry (env_now_update env) (push_minutes env))).
Proof.
  destruct p as [st svc]. cbn zeta. unfold enforceChild, push_minutes.
  destruct (env_quota env) as [| |allowed secs]; simpl; auto.
  destruct (determineSyncStrategy _ _ _ _); simpl; auto.
  destruct (setScreenTimeLimit _ _ _ _) as [[[r|msg] svc'] evs] eqn:Hpush;
    simpl; auto.
  apply setScreenTimeLimit_returned in Hpush as (_ & -> & _).
  destruct (decide (a = a')) as [<-|Hne].
  - right. split; [done|]. split; [right; by left|]. apply lookup_insert_eq.
  - left. by apply lookup_insert_ne.
Qed.

Lemma enforceEntries_entry envs l p a :
  let r := enforceEntries envs l p in
  quotaState (fst (fst r)) !! a = quotaState (fst p) !! a
  \/ exists ms,
       (ms, a) ∈ l
       /\ EvFetch "/setScreenTimeLimit" ms (Some (push_minutes (envs ms)))
            ∈ snd r
       /\ quotaState (fst (fst r)) !! a
          = Some (pushedEntry (env_now_update (envs ms))
                    (push_minutes (envs ms))).
Proof.
  revert p. induction l as [|[ms a0] l IH]; intros p; [by left|].
  rewrite enforceEntries_cons. cbn zeta. cbn [fst snd].
  destruct (IH (fst (enforceChild (envs ms) ms a0 p)))
    as [Hrest|(ms' & Hin & Hev & Hq)]; cbn zeta in *.
  - destruct (enforceChild_entry (envs ms) ms a0 p a)
      as [Hhead|(-> & Hev & Hq)]; cbn zeta in *.
    + left. congruence.
    + right. exists ms. split; [by left|].
      split; [apply elem_of_app; by left|]. congruence.
  - right. exists ms'. split; [by right|].
    split; [apply elem_of_app; by right|done].
Qed.

(** X15: a tick rewrites a quota entry only by a push: after any tick an
    entry is either what it was before, or it records the time and the
    (non-negative) minutes of a [/setScreenTimeLimit] request that this
    tick sent for a Microsoft child linked to that Allow2 child, in both
    minute fields. *)
Theorem quota_entry_written_only_by_push (env : tick_env) st svc a :
  let r := checkAndEnforceQuotas Object_entries env (st, svc) in
  quotaState (fst (fst r)) !! a = quotaState st !! a
  \/ exists ms m t,
       (ms, a) ∈ Object_entries (childLinks st)
       /\ EvFetch "/setScreenTimeLimit" ms (Some m) ∈ snd r
       /\ 0 <= m
       /\ quotaState (fst (fst r)) !! a
          = Some {| lastSyncTime := t; lastSyncMinutes := m; allow2Minutes := m |}.
Proof.
  cbn zeta. unfold checkAndEnforceQuotas.
  destruct (negb (authenticated st)
            || negb (isAuthenticated svc (tick_now_auth env))); [by left|].
  destruct (enforceEntries_entry (tick_child env)
              (Object_entries (childLinks st)) (st, svc) a)
    as [Hsame|(ms & Hin & Hev & Hq)]; cbn zeta in *;
    destruct (enforceEntries _ _ _) as [[st' svc'] evs]; cbn [fst snd] in *.
  - by left.
  - right. exists ms, (push_minutes (tick_child env ms)),
      (env_now_update (tick_child env ms)).
    split; [done|]. split; [apply elem_of_app; by left|].
    split; [apply push_minutes_nonneg|done].
Qed.

(** X16: a tick never changes the links, the settings, the
    authenticated flag or the client's token; and it stamps [lastSync] with
    its closing time whenever it got past the authentication guard, whether
    or not any push was made or succeeded, and leaves it alone otherwise. *)
Theorem tick_changes_only_sync_state (env : tick_env) st svc :
  let r := checkAndEnforceQuotas Object_entries env (st, svc) in
  childLinks (fst (fst r)) = childLinks st
  /\ settings (fst (fst r)) = settings st
  /\ authenticated (fst (fst r)) = authenticated st
  /\ accessToken (snd (fst r)) = accessToken svc
  /\ tokenExpiry (snd (fst r)) = tokenExpiry svc
  /\ lastSync (fst (fst r))
     = if authenticated st && isAuthenticated svc (tick_now_auth env)
       then Some (tick_now_end env)
       else lastSync st.
Proof.
  cbn zeta. unfold checkAndEnforceQuotas.
  destruct (authenticated st) eqn:Hflag; simpl; [|by repeat split].
  destruct (isAuthenticated svc (tick_now_auth env)) eqn:Hauth; simpl;
    [|by repeat split].
  destruct (enforceEntries_frame (tick_child env)
              (Object_entries (childLinks st)) (st, svc))
    as (Hs & Hl & Ha & _ & _).
  pose proof (enforceEntries_credentials (tick_child env)
                (Object_entries (childLinks st)) (st, svc)) as Hcred.
  assert (Htok : accessToken (snd (fst (enforceEntries (tick_child env)
                    (Object_entries (childLinks st)) (st, svc))))
                 = accessToken svc
                 /\ tokenExpiry (snd (fst (enforceEntries (tick_child env)
                    (Object_entries (childLinks st)) (st, svc))))
                    = tokenExpiry svc).
  { clear. generalize (Object_entries (childLinks st)). intros l.
    revert st svc. induction l as [|[ms a] l IH]; intros st svc; [done|].
    rewrite enforceEntries_cons. cbn [fst snd].
    destruct (enforceChild_frame (tick_child env ms) ms a (st, svc))
      as (_ & _ & _ & _ & _ & Htok & Hexp). cbn zeta in *.
    destruct (enforceChild (tick_child env ms) ms a (st, svc))
      as [[st1 svc1] evs1]. cbn [fst snd] in *.
    destruct (IH st1 svc1) as [-> ->]. by split. }
  cbn zeta in *.
  destruct (enforceEntries _ _ _) as [[st' svc'] evs]. cbn [fst snd] in *.
  destruct Htok as [Htok Hexp]. simpl. rewrite Ha, Hflag. by repeat split.
Qed.

End TickMore.

Lemma tick_remote_calls_bounded_witness :
  let evs := snd (checkAndEnforceQuotas Scenarios.created_12
                    Scenarios.tick_ms1_fails
                    (Scenarios.st_two, Scenarios.svc_cached)) in
  (length (List.filter (is_remote_call_for "ms-1") evs) <= 1)%nat
  /\ (length (List.filter (is_remote_call_for "ms-2") evs) <= 1)%nat
  /\ length (List.filter (is_remote_call_for "ms-3") evs) = 0%nat
  /\ (length (List.filter is_remote_call evs) <= 2)%nat.
Proof.
  destruct (tick_remote_calls_bounded Scenarios.created_12
              Scenarios.tick_ms1_fails Scenarios.st_two
              Scenarios.svc_cached created_12_st_two) as (Hper & Htotal & _).
  split; [exact (proj1 (Hper "ms-1"))|].
  split; [exact (proj1 (Hper "ms-2"))|].
  split; [apply (proj2 (Hper "ms-3")); reflexivity|].
  exact Htotal.
Defined.

Section AfterPush.

Implicit Types (st : PluginState) (svc : MicrosoftFamilyService.t)
  (p : PluginState * MicrosoftFamilyService.t) (ms a : string).

Lemma oldMinutes_of_same q n :
  allow2Minutes q = n -> oldMinutes_of (Some q) n = n.
Proof.
  intros Heq. destruct (Z.eq_dec (allow2Minutes q) 0) as [Hz|Hnz].
  - by apply oldMinutes_of_zero.
  - rewrite <- Heq at 2. by apply oldMinutes_of_nonzero.
Qed.

Lemma just_pushed_not_due st a t m now :
  quotaState st !! a = Some (pushedEntry t m) ->
  now - t < aggressiveInterval ->
  now - t < syncInterval (settings st) ->
  determineSyncStrategy st a m now = false.
Proof.
  intros Hq Hagg Hnorm. unfold determineSyncStrategy.
  rewrite Hq, lastSync_of_entry,
    (oldMinutes_of_same (pushedEntry t m) m eq_refl). simpl.
  zbool; first [reflexivity | lia].
Qed.

(** X17: no second push for an unchanged quota: when an iteration has
    pushed successfully, a later iteration for the same Allow2 child that
    reads the same quota before both the aggressive and the normal interval
    have elapsed since the state was stamped makes no remote call and
    leaves state and client as they are. *)
Theorem no_second_push_before_interval
    (env1 env2 : child_env) ms ms' a p m :
  push_succeeds env1 ms a p m ->
  env_quota env2 = env_quota env1 ->
  env_now_decide env2 - env_now_update env1 < aggressiveInterval ->
  env_now_decide env2 - env_now_update env1 < syncInterval (settings (fst p)) ->
  enforceChild env2 ms' a (fst (enforceChild env1 ms a p))
  = (fst (enforceChild env1 ms a p), [EvGetQuota a]).
Proof.
  intros [r Hatt] Hquota Hagg Hnorm.
  pose proof (enforceChild_push_attempt env1 ms a p) as Hst.
  rewrite Hatt in Hst.
  destruct (enforceChild_frame env1 ms a p) as (Hs & _). cbn zeta in Hs.
  destruct (enforceChild env1 ms a p) as [[st1 svc1] evs1]. cbn [fst] in *.
  unfold push_attempt in Hatt.
  destruct (env_quota env1) as [| |allowed secs] eqn:Hq1; try discriminate.
  destruct (determineSyncStrategy _ _ _ _); [|discriminate].
  injection Hatt as <- _.
  unfold enforceChild. rewrite Hquota.
  rewrite (just_pushed_not_due st1 a (env_now_update env1)
             (remainingMinutes_of allowed secs) (env_now_decide env2)).
  - reflexivity.
  - rewrite Hst. simpl. apply lookup_insert_eq.
  - done.
  - by rewrite Hs.
Qed.

Lemma no_second_push_before_interval_witness :
  let p1 := fst (enforceChild (Scenarios.child_25 Scenarios.push_ok)
                   "ms-1" "kid-1" (Scenarios.st_two, Scenarios.svc_cached)) in
  enforceChild (Scenarios.child_25 Scenarios.push_ok) "ms-1" "kid-1" p1
  = (p1, [EvGetQuota "kid-1"]).
Proof.
  apply (no_second_push_before_interval
           (Scenarios.child_25 Scenarios.push_ok)
           (Scenarios.child_25 Scenarios.push_ok)
           "ms-1" "ms-1" "kid-1"
           (Scenarios.st_two, Scenarios.svc_cached) 25).
  - eexists. reflexivity.
  - reflexivity.
  - vm_compute. reflexivity.
  - vm_compute. reflexivity.
Defined.

End AfterPush.

(** * Further properties of the link registry *)

Section RegistryMore.

Implicit Types (st : PluginState) (ms a : string).

(** X18: linking a Microsoft child that is not linked to a non-empty
    Allow2 id that has no entry, and unlinking it again, gives back the
    state one started from. *)
Theorem link_then_unlink_restores st ms a :
  childLinks st !! ms = None ->
  quotaState st !! a = None ->
  truthy_str a = true ->
  apply_ops [Link ms a; Unlink ms] st = st.
Proof.
  intros Hl Hq Ht. unfold apply_ops. simpl.
  unfold unlinkChild. simpl. rewrite lookup_insert_eq, Ht. simpl.
  rewrite (delete_insert_id _ _ _ Hl), (delete_insert_id _ _ _ Hq).
  by destruct st.
Qed.

Lemma link_then_unlink_restores_witness :
  apply_ops [Link "ms-3" "kid-3"; Unlink "ms-3"] Scenarios.st_two
  = Scenarios.st_two.
Proof.
  apply (link_then_unlink_restores Scenarios.st_two "ms-3" "kid-3");
    reflexivity.
Defined.

(** X19: [unlinkChild] is local: it leaves every other link alone, it
    leaves every entry alone except the one of the Allow2 child the link
    pointed to, and unlinking a Microsoft child that is not linked changes
    nothing at all. *)
Theorem unlinkChild_is_local st ms :
  (childLinks st !! ms = None -> fst (unlinkChild ms st) = st)
  /\ childLinks (fst (unlinkChild ms st)) !! ms = None
  /\ (forall ms', ms' <> ms ->
        childLinks (fst (unlinkChild ms st)) !! ms' = childLinks st !! ms')
  /\ (forall a', childLinks st !! ms <> Some a' ->
        quotaState (fst (unlinkChild ms st)) !! a' = quotaState st !! a')
  /\ settings (fst (unlinkChild ms st)) = settings st
  /\ authenticated (fst (unlinkChild ms st)) = authenticated st
  /\ lastSync (fst (unlinkChild ms st)) = lastSync st.
Proof.
  split.
  { intros Hl. rewrite (unlinkChild_not_linked ms st Hl). by destruct st. }
  unfold unlinkChild. simpl.
  split; [apply lookup_delete_eq|].
  split; [intros ms' Hne; by apply lookup_delete_ne|].
  split; [|done].
  intros a' Hne. destruct (childLinks st !! ms) as [a|]; [|done].
  destruct (truthy_str a); [|done].
  apply lookup_delete_ne. congruence.
Qed.

End RegistryMore.

(** * The lifecycle hooks *)

Section LifecycleProperties.

Import Lifecycle.

Variable Object_entries : gmap string string -> list (string * string).

Implicit Types (c : Closure) (env : tick_env).

Lemma quotaMonitorTick_monitor env c :
  quotaMonitor (fst (quotaMonitorTick Object_entries env c)) = quotaMonitor c
  /\ timers (fst (quotaMonitorTick Object_entries env c)) = timers c.
Proof.
  unfold quotaMonitorTick.
  by destruct (checkAndEnforceQuotas _ _ _) as [p evs].
Qed.

Lemma startQuotaMonitor_inv handle env c :
  monitor_inv c ->
  monitor_inv (fst (startQuotaMonitor Object_entries handle env c)).
Proof.
  unfold monitor_inv, startQuotaMonitor. intros Hinv.
  destruct (quotaMonitor c) as [h|] eqn:Hm; simpl; [by rewrite Hm|].
  destruct (quotaMonitorTick_monitor env
              {| state := state c; familyService := familyService c;
                 quotaMonitor := Some handle;
                 timers := {[handle]} ∪ timers c |}) as [-> ->].
  simpl. rewrite Hinv. by rewrite union_empty_r_L.
Qed.

Lemma stopQuotaMonitor_inv c :
  monitor_inv c -> monitor_inv (stopQuotaMonitor c).
Proof.
  unfold monitor_inv, stopQuotaMonitor. intros Hinv.
  destruct (quotaMonitor c) as [h|] eqn:Hm; simpl; [|by rewrite Hm].
  rewrite Hinv. by rewrite difference_diag_L.
Qed.

Lemma stopQuotaMonitor_stopped c :
  quotaMonitor (stopQuotaMonitor c) = None.
Proof. unfold stopQuotaMonitor. by destruct (quotaMonitor c) eqn:Hm. Qed.

Lemma run_hook_inv h c :
  monitor_inv c -> monitor_inv (run_hook Object_entries h c).
Proof.
  intros Hinv.
  destruct h as [enabled handle env|st' changed handle env|env|bound env|];
    simpl.
  - unfold onSetEnabled. destruct enabled.
    + destruct (authenticated (state c)); [|done].
      pose proof (startQuotaMonitor_inv handle env c Hinv) as Hs.
      by destruct (startQuotaMonitor _ _ _ _) as [c' evs].
    + by apply stopQuotaMonitor_inv.
  - unfold newState.
    set (c1 := {| state := st'; familyService := familyService c;
                  quotaMonitor := quotaMonitor c; timers := timers c |}).
    assert (Hinv1 : monitor_inv c1) by exact Hinv.
    destruct (quotaMonitor c); [|done].
    destruct changed; [|done].
    destruct (authenticated st'); simpl.
    + by apply startQuotaMonitor_inv, stopQuotaMonitor_inv.
    + by apply stopQuotaMonitor_inv.
  - unfold monitor_inv.
    by destruct (quotaMonitorTick_monitor env c) as [-> ->].
  - unfold monitor_inv, syncNow.
    by destruct (checkAndEnforceQuotas _ _ _) as [p evs].
  - by apply stopQuotaMonitor_inv.
Qed.

Lemma onLoad_inv loadState now : monitor_inv (onLoad loadState now).
Proof.
  unfold onLoad. destruct loadState as [s|]; [|done].
  by destruct (storedTokenValid s now).
Qed.

(** X20: however the host enables, disables, reconfigures, fires the
    timer of, syncs and unloads a plugin it has loaded, the timers the
    plugin has registered are exactly the one recorded in [quotaMonitor], if
    any: never two monitors at once, and none left behind by a stop. *)
Theorem at_most_one_monitor (hs : list hook) loadState now :
  let c := run_hooks Object_entries hs (onLoad loadState now) in
  monitor_inv c /\ (size (timers c) <= 1)%nat.
Proof.
  cbn zeta.
  assert (Hinv : monitor_inv (run_hooks Object_entries hs (onLoad loadState now))).
  { generalize (onLoad_inv loadState now).
    generalize (onLoad loadState now). unfold run_hooks.
    induction hs as [|h hs IH]; intros c Hc; [done|].
    simpl. by apply IH, run_hook_inv. }
  split; [done|]. rewrite Hinv.
  destruct (quotaMonitor _); [rewrite size_singleton|rewrite size_empty]; lia.
Qed.

(** X21: disabling always leaves the monitor stopped without running a
    tick; enabling without the authenticated flag changes nothing and runs
    no tick; and enabling a plugin whose monitor is already running changes
    nothing and runs no second tick. *)
Theorem onSetEnabled_starts_at_most_once handle env c :
  quotaMonitor (fst (fst (onSetEnabled Object_entries false handle env c)))
  = None
  /\ snd (fst (onSetEnabled Object_entries false handle env c)) = []
  /\ state (fst (fst (onSetEnabled Object_entries false handle env c)))
     = state c
  /\ (authenticated (state c) = false ->
      fst (onSetEnabled Object_entries true handle env c) = (c, []))
  /\ (is_Some (quotaMonitor c) ->
      fst (onSetEnabled Object_entries true handle env c) = (c, []))
  /\ (authenticated (state c) = true ->
      forall handle' env',
        let c1 := fst (fst (onSetEnabled Object_entries true handle env c)) in
        fst (onSetEnabled Object_entries true handle' env' c1) = (c1, [])).
Proof.
  split; [apply stopQuotaMonitor_stopped|]. split; [done|].
  split; [unfold onSetEnabled, stopQuotaMonitor; simpl;
          by destruct (quotaMonitor c)|].
  split; [intros Ha; unfold onSetEnabled; by rewrite Ha|].
  assert (Hrunning : forall c0 h0 e0, is_Some (quotaMonitor c0) ->
            fst (onSetEnabled Object_entries true h0 e0 c0) = (c0, [])).
  { intros c0 h0 e0 [h Hm]. unfold onSetEnabled, startQuotaMonitor.
    rewrite Hm. by destruct (authenticated (state c0)). }
  split; [apply Hrunning|].
  intros Ha handle' env' c1. apply Hrunning. subst c1.
  unfold onSetEnabled, startQuotaMonitor. rewrite Ha.
  destruct (quotaMonitor c) as [h|] eqn:Hm; simpl; [by rewrite Hm|].
  destruct (quotaMonitorTick_monitor env
              {| state := state c; familyService := familyService c;
                 quotaMonitor := Some handle;
                 timers := {[handle]} ∪ timers c |}) as [Hq _].
  destruct (quotaMonitorTick _ _ _) as [c' evs]. simpl in *.
  rewrite Hq. by eexists.
Qed.

(** X22: a freshly loaded plugin has no timer, and its client is
    authenticated at a time exactly when the persisted state carried a
    non-empty token that was unexpired both at load time and at that time;
    in that case the state is flagged authenticated.  Whatever flag the
    persisted state carried, a tick that comes when this is not so is
    skipped: no event, nothing changed. *)
Theorem onLoad_restores_only_live_tokens loadState now :
  let c := onLoad loadState now in
  quotaMonitor c = None
  /\ timers c = ∅
  /\ (forall now',
        isAuthenticated (familyService c) now' = true
        <-> exists s, loadState = Some s
                      /\ storedTokenValid s now = true
                      /\ storedTokenValid s now' = true)
  /\ (isAuthenticated (familyService c) now = true ->
      authenticated (state c) = true)
  /\ (forall env,
        isAuthenticated (familyService c) (tick_now_auth env) = false ->
        quotaMonitorTick Object_entries env c = (c, [])).
Proof.
  cbn zeta.
  assert (Hskip : forall c env,
            isAuthenticated (familyService c) (tick_now_auth env) = false ->
            quotaMonitorTick Object_entries env c = (c, [])).
  { intros c env Hno. unfold quotaMonitorTick, checkAndEnforceQuotas.
    rewrite Hno, orb_true_r. by destruct c. }
  split; [unfold onLoad; destruct loadState as [s|];
          [by destruct (storedTokenValid s now)|done]|].
  split; [unfold onLoad; destruct loadState as [s|];
          [by destruct (storedTokenValid s now)|done]|].
  split; [|split; [|intros env; apply Hskip]].
  - intros now'. unfold onLoad. destruct loadState as [s|].
    + destruct (storedTokenValid s now) eqn:Hvalid; simpl.
      * split.
        -- intros Hauth. exists s. by repeat split.
        -- intros (s' & [= <-] & _ & Hauth). exact Hauth.
      * split; [done|]. intros (s' & [= <-] & Hv & _). congruence.
    + simpl. split; [done|]. by intros (s' & [=] & _).
  - unfold onLoad. destruct loadState as [s|]; [|done].
    by destruct (storedTokenValid s now).
Qed.

End LifecycleProperties.

Lemma onSetEnabled_starts_at_most_once_witness :
  fst (Lifecycle.onSetEnabled Scenarios.created_12 true 8%nat
         (Scenarios.tick_45_at 1300000) Scenarios.closure_45)
  = (Scenarios.closure_45, []).
Proof.
  destruct (onSetEnabled_starts_at_most_once Scenarios.created_12 8%nat
              (Scenarios.tick_45_at 1300000) Scenarios.closure_45)
    as (_ & _ & _ & _ & Hrunning & _).
  apply Hrunning. by eexists.
Defined.

Lemma onLoad_restores_only_live_tokens_witness :
  authenticated (state (Lifecycle.onLoad (Some Cases.stored_expired) 1000000))
  = true
  /\ quotaMonitorTick Scenarios.created_12 Scenarios.tick_ms1_fails
       (Lifecycle.onLoad (Some Cases.stored_expired) 1000000)
     = (Lifecycle.onLoad (Some Cases.stored_expired) 1000000, []).
Proof.
  split; [reflexivity|].
  destruct (onLoad_restores_only_live_tokens Scenarios.created_12
              (Some Cases.stored_expired) 1000000)
    as (_ & _ & _ & _ & Hskip).
  apply Hskip. reflexivity.
Defined.

(** * Manual calls through IPC *)

Section IpcProperties.

Implicit Types (c : Closure) (ms : string).

(** X23: the manual ['msFamily.setScreenTime'] and
    ['msFamily.getScreenTime'] handlers never change the plugin state, so a
    limit set by hand is not recorded as pushed and the engine decides as
    if it had not happened; they leave the monitor alone; a manual set
    without a valid token answers with an error and makes no remote call;
    and one that succeeds sent exactly the minutes given and dropped the
    child's cached snapshot. *)
Theorem manual_calls_leave_sync_state ms minutes penv fenv c :
  let set := Ipc.setScreenTime ms minutes penv c in
  let get := Ipc.getScreenTime ms fenv c in
  state (snd (fst set)) = state c
  /\ state (snd (fst get)) = state c
  /\ quotaMonitor (snd (fst set)) = quotaMonitor c
  /\ timers (snd (fst set)) = timers c
  /\ (forall a n now,
        determineSyncStrategy (state (snd (fst set))) a n now
        = determineSyncStrategy (state c) a n now)
  /\ (isAuthenticated (familyService c) (push_now_check penv) = false ->
      exists msg, fst (fst set) = Ipc.IpcError msg /\ snd set = [])
  /\ (forall result,
        fst (fst set) = Ipc.IpcResult result ->
        set_dailyLimit result = minutes
        /\ snd set = [EvFetch "/setScreenTimeLimit" ms (Some minutes)]
        /\ cache_screenTime (familyService (snd (fst set))) !! ms = None).
Proof.
  cbn zeta. unfold Ipc.setScreenTime, Ipc.getScreenTime.
  destruct (getScreenTime (familyService c) ms false fenv)
    as [[[s|gmsg] gsvc] gevs].
  all: destruct (setScreenTimeLimit (familyService c) ms minutes penv)
         as [[[r|msg] svc'] evs] eqn:Hpush; simpl.
  all: do 5 (split; [done|]).
  all: split.
  all: try (intros Hno; unfold setScreenTimeLimit in Hpush;
            rewrite Hno in Hpush; simpl in Hpush;
            first [discriminate | injection Hpush as <- <- <-; by eexists]).
  all: try done.
  all: intros result [= <-];
    apply setScreenTimeLimit_returned in Hpush as (-> & -> & ->);
    split; [done|]; split; [done|]; apply lookup_delete_eq.
Qed.

End IpcProperties.

(** * A failed push is tried again *)

Section Retry.

Implicit Types (p : PluginState * MicrosoftFamilyService.t) (ms a : string).



End Retry.

(** * Listing the children through IPC *)

Section IpcRosterProperties.

Import Roster IpcRoster.

Lemma indexChildren_snoc children child :
  indexChildren (children ++ [child])
  = <[member_id child := child]> (indexChildren children).
Proof. unfold indexChildren. by rewrite foldl_app. Qed.

Lemma indexChildren_lookup children id m :
  indexChildren children !! id = Some m ->
  member_id m = id /\ m ∈ children.
Proof.
  induction children as [|child children IH] using rev_ind.
  - unfold indexChildren. simpl. by rewrite lookup_empty.
  - rewrite indexChildren_snoc.
    intros [[<- <-]|[Hne Hm]]%lookup_insert_Some.
    + split; [done|]. apply elem_of_app. right. by left.
    + destruct (IH Hm) as [Hid Hin]. split; [done|].
      apply elem_of_app. by left.
Qed.

Lemma indexChildren_covers children m :
  m ∈ children -> is_Some (indexChildren children !! member_id m).
Proof.
  induction children as [|child children IH] using rev_ind.
  - by intros ?%elem_of_nil.
  - rewrite indexChildren_snoc.
    intros [Hin|Hin%list_elem_of_singleton]%elem_of_app.
    + destruct (decide (member_id child = member_id m)) as [Heq|Hne].
      * rewrite Heq, lookup_insert_eq. by eexists.
      * rewrite lookup_insert_ne by done. by apply IH.
    + subst child. rewrite lookup_insert_eq. by eexists.
Qed.

(** X25: after a successful ['msFamily.getChildren'], [state.children]
    has an entry under the id of every child returned, every entry is one
    of the children returned and is filed under its own id, and the state
    is persisted once; after a failed one [state.children] is what it was
    and nothing is persisted. *)
Theorem getChildren_indexes_the_roster env c stateChildren :
  let r := getChildren env c stateChildren in
  (forall children,
     fst (fst (fst r)) = Ipc.IpcResult children ->
     (forall m, m ∈ children -> is_Some (snd (fst r) !! member_id m))
     /\ (forall id m, snd (fst r) !! id = Some m ->
           member_id m = id /\ m ∈ children)
     /\ exists evs, snd r = evs ++ [EvConfigurationUpdate]
                    /\ EvConfigurationUpdate ∉ evs)
  /\ (forall msg,
        fst (fst (fst r)) = Ipc.IpcError msg ->
        snd (fst r) = stateChildren
        /\ snd (fst (fst r)) = c
        /\ EvConfigurationUpdate ∉ snd r).
Proof.
  cbn zeta. unfold getChildren.
  assert (Hevs : forall o c' evs,
            getFamilyMembers c false env = (o, c', evs) ->
            EvConfigurationUpdate ∉ evs).
  { intros o c' evs. unfold getFamilyMembers.
    destruct (isAuthenticated _ _); simpl;
      [|intros [= _ _ <-]; by apply not_elem_of_nil].
    destruct (roster_hit _ _ _);
      [intros [= _ _ <-]; by apply not_elem_of_nil|].
    destruct (apiRequest _ _ _ _ _ _) as [[response|msg] evs0] eqn:Hreq.
    - apply apiRequest_events in Hreq.
      destruct (validFamilyId response), response;
        intros [= _ _ <-]; destruct Hreq as [-> | ->];
        first [by apply not_elem_of_nil
              | by intros [=]%list_elem_of_singleton].
    - apply apiRequest_events in Hreq.
      intros [= _ _ <-]; destruct Hreq as [-> | ->];
        first [by apply not_elem_of_nil
              | by intros [=]%list_elem_of_singleton]. }
  pose proof (roster_refresh_failure c false env) as Hsame.
  destruct (getFamilyMembers c false env) as [[[children|msg] c'] evs] eqn:Hget;
    simpl; (split; [|by intros ? [=]]) || (split; [by intros ? [=]|]).
  - intros ? [= <-].
    split; [apply indexChildren_covers|].
    split; [apply indexChildren_lookup|].
    exists evs. split; [done|]. by apply (Hevs _ _ _ eq_refl).
  - intros ? _. split; [done|].
    split; [by apply (Hsame msg)|]. by apply (Hevs _ _ _ eq_refl).
Qed.

End IpcRosterProperties.
